(** * TodoList: a shallow embedding of [contracts/TodoList.sol]

    The contract keeps one dynamic storage array [todos] and emits one event
    per mutation.  Solidity 0.8 semantics that matter here are written out:
    [uint256] values are integers in [0, 2^256), arithmetic is checked
    (Panic 0x11), array accesses are bounds-checked (Panic 0x32), [pop] on an
    empty array panics (0x31), [require] reverts with its message, and a
    failing call rolls the whole transaction back (storage and logs). *)

From stdpp Require Import base list strings.
From Stdlib Require Import ZArith Lia.

Local Open Scope Z_scope.

(** ** Machine integers *)

Definition uint256_max : Z := 2 ^ 256 - 1.

Definition is_uint256 (z : Z) : Prop := 0 <= z <= uint256_max.

(** ** Data model *)

(** [struct Todo { string text; bool completed; }] *)
Record Todo : Type := mkTodo { text : string; completed : bool }.

(** The three [event] declarations of the contract. *)
Inductive Event : Type :=
| TodoAdded (id : Z) (_text : string)
| TodoToggled (id : Z) (_completed : bool)
| TodoRemoved (id : Z).

(** What a transaction can see and change: the storage array and the
    append-only list of emitted events. *)
Record State : Type := mkState { todos : list Todo; events : list Event }.

Definition initial : State := mkState [] [].

(** A state that fits in storage: the array length is itself a [uint256]. *)
Definition storage_ok (s : State) : Prop :=
  is_uint256 (Z.of_nat (length (todos s))).

(** ** Failures and the execution monad *)

Inductive Failure : Type :=
| Revert (reason : string)
| Panic (code : Z)
| OutOfFuel.

Inductive outcome (A : Type) : Type :=
| Ok (a : A)
| Fail (f : Failure).
Arguments Ok {A} a.
Arguments Fail {A} f.

(** A computation returns its outcome together with the state it had
    reached when it stopped; [transact] below is what discards the state of
    a failed run. *)
Definition M (A : Type) : Type := State -> outcome A * State.

Definition ret {A} (a : A) : M A := fun s => (Ok a, s).

Definition fail {A} (f : Failure) : M A := fun s => (Fail f, s).

Definition bind {A B} (m : M A) (k : A -> M B) : M B :=
  fun s =>
    match m s with
    | (Ok a, s') => k a s'
    | (Fail f, s') => (Fail f, s')
    end.

Notation "'let!' x ':=' m 'in' k" := (bind m (fun x => k))
  (at level 10, x name, m at level 100, k at level 200).
Notation "m '>>' k" := (bind m (fun _ => k))
  (at level 100, k at level 200, right associativity).

(** A transaction either commits the state the call reached or, on any
    failure, keeps the state it started from. *)
Definition transact {A} (m : M A) (s : State) : outcome A * State :=
  match m s with
  | (Ok a, s') => (Ok a, s')
  | (Fail f, _) => (Fail f, s)
  end.

(** ** Primitive statements *)

Definition panic_arith : Z := 17.       (* 0x11 *)
Definition panic_pop_empty : Z := 49.   (* 0x31 *)
Definition panic_index : Z := 50.       (* 0x32 *)

Definition require (cond : bool) (msg : string) : M unit :=
  if cond then ret tt else fail (Revert msg).

Definition checked_sub (a b : Z) : M Z :=
  if a <? b then fail (Panic panic_arith) else ret (a - b).

Definition checked_add (a b : Z) : M Z :=
  if uint256_max <? a + b then fail (Panic panic_arith) else ret (a + b).

Definition emit (e : Event) : M unit :=
  fun s => (Ok tt, mkState (todos s) (events s ++ [e])).

(** [todos.length] *)
Definition todos_length : M Z :=
  fun s => (Ok (Z.of_nat (length (todos s))), s).

(** [todos.push(t)] *)
Definition todos_push (t : Todo) : M unit :=
  fun s => (Ok tt, mkState (todos s ++ [t]) (events s)).

(** [todos.pop()] *)
Definition todos_pop : M unit :=
  fun s =>
    match todos s with
    | [] => (Fail (Panic panic_pop_empty), s)
    | _ :: _ => (Ok tt, mkState (removelast (todos s)) (events s))
    end.

Definition in_bounds (i : Z) (s : State) : bool :=
  (0 <=? i) && (i <? Z.of_nat (length (todos s))).

(** [todos[i]] read *)
Definition todos_get (i : Z) : M Todo :=
  fun s =>
    if in_bounds i s then
      match todos s !! Z.to_nat i with
      | Some t => (Ok t, s)
      | None => (Fail (Panic panic_index), s)
      end
    else (Fail (Panic panic_index), s).

(** [todos[i] = t] *)
Definition todos_set (i : Z) (t : Todo) : M unit :=
  fun s =>
    if in_bounds i s then
      (Ok tt, mkState (<[Z.to_nat i := t]> (todos s)) (events s))
    else (Fail (Panic panic_index), s).

(** [todos[i].completed = b] *)
Definition todos_set_completed (i : Z) (b : bool) : M unit :=
  let! t := todos_get i in
  todos_set i (mkTodo (text t) b).

(** ** The contract's functions *)

(** [function addTodo(string memory _text) public] *)
Definition addTodo (_text : string) : M unit :=
  todos_push (mkTodo _text false) >>
  let! n := todos_length in
  let! id := checked_sub n 1 in
  emit (TodoAdded id _text).

(** [function toggleTodo(uint256 _index) public] *)
Definition toggleTodo (_index : Z) : M unit :=
  let! n := todos_length in
  require (_index <? n) "Todo does not exist" >>
  let! old := todos_get _index in
  todos_set_completed _index (negb (completed old)) >>
  let! new := todos_get _index in
  emit (TodoToggled _index (completed new)).

(** The [for] loop of [removeTodo], started at index [i]:
    [for (...; i < todos.length - 1; i++) { todos[i] = todos[i + 1]; }].
    One unit of fuel is spent per execution of the body; the result is the
    number of times the body ran. *)
Fixpoint shift_loop (fuel : nat) (i : Z) : M nat :=
  let! n := todos_length in
  let! bound := checked_sub n 1 in
  if i <? bound then
    match fuel with
    | O => fail OutOfFuel
    | S fuel' =>
        let! j := checked_add i 1 in
        let! t := todos_get j in
        todos_set i t >>
        let! i' := checked_add i 1 in
        let! k := shift_loop fuel' i' in
        ret (S k)
    end
  else ret O.

(** [function removeTodo(uint256 _index) public] *)
Definition removeTodo (fuel : nat) (_index : Z) : M unit :=
  let! n := todos_length in
  require (_index <? n) "Todo does not exist" >>
  shift_loop fuel _index >>
  todos_pop >>
  emit (TodoRemoved _index).

(** [function getTodos() public view returns (Todo[] memory)] *)
Definition getTodos : M (list Todo) :=
  fun s => (Ok (todos s), s).

(** [function getTodoCount() public view returns (uint256)] *)
Definition getTodoCount : M Z := todos_length.

(** The getter generated by [Todo[] public todos]. *)
Definition todos_getter (i : Z) : M Todo := todos_get i.

(** ** The external interface

    A call names one of the public functions with its arguments; what comes
    back is the function's return data, empty for the three mutators. *)

Inductive Call : Type :=
| CallAddTodo (_text : string)
| CallToggleTodo (_index : Z)
| CallRemoveTodo (_index : Z)
| CallGetTodos
| CallGetTodoCount
| CallTodos (i : Z).

Inductive ReturnData : Type :=
| RetNone
| RetUint (n : Z)
| RetTodo (t : Todo)
| RetTodos (l : list Todo).

Definition dispatch (fuel : nat) (c : Call) : M ReturnData :=
  match c with
  | CallAddTodo _text => addTodo _text >> ret RetNone
  | CallToggleTodo _index => toggleTodo _index >> ret RetNone
  | CallRemoveTodo _index => removeTodo fuel _index >> ret RetNone
  | CallGetTodos => let! l := getTodos in ret (RetTodos l)
  | CallGetTodoCount => let! n := getTodoCount in ret (RetUint n)
  | CallTodos i => let! t := todos_getter i in ret (RetTodo t)
  end.

(** One transaction, and a sequence of them applied in order. *)
Definition step (fuel : nat) (s : State) (c : Call) : State :=
  snd (transact (dispatch fuel c) s).

Definition run (fuel : nat) (cs : list Call) (s : State) : State :=
  fold_left (step fuel) cs s.

(** ** Replaying the event log

    This definition follows the specification's description of replay, not
    the contract: an Added event puts [{text, completed = false}] at the
    tail, a Toggled event sets the flag at its recorded position to the
    recorded value, a Removed event deletes the entry at its recorded
    position and closes the gap. *)

Definition replay_event (l : list Todo) (e : Event) : list Todo :=
  match e with
  | TodoAdded _ _text => l ++ [mkTodo _text false]
  | TodoToggled id c => alter (fun t => mkTodo (text t) c) (Z.to_nat id) l
  | TodoRemoved id => delete (Z.to_nat id) l
  end.

Definition replay (log : list Event) : list Todo :=
  fold_left replay_event log [].

(** ** What one transaction can do to the state *)

Inductive Effect (s : State) : Call -> State -> Prop :=
| EffNone c : Effect s c s
| EffAdded _text :
    Effect s (CallAddTodo _text)
      (mkState (todos s ++ [mkTodo _text false])
               (events s ++ [TodoAdded (Z.of_nat (length (todos s))) _text]))
| EffToggled _index t :
    0 <= _index ->
    todos s !! Z.to_nat _index = Some t ->
    Effect s (CallToggleTodo _index)
      (mkState (<[Z.to_nat _index := mkTodo (text t) (negb (completed t))]> (todos s))
               (events s ++ [TodoToggled _index (negb (completed t))]))
| EffRemoved _index :
    0 <= _index < Z.of_nat (length (todos s)) ->
    Effect s (CallRemoveTodo _index)
      (mkState (delete (Z.to_nat _index) (todos s))
               (events s ++ [TodoRemoved _index])).

(** ** Reading the event log and the call sequence *)

Definition is_added (e : Event) : bool :=
  match e with TodoAdded _ _ => true | _ => false end.

Definition is_removed (e : Event) : bool :=
  match e with TodoRemoved _ => true | _ => false end.

(** An event fits the array it is applied to when its position is the one
    the contract would have recorded there: the tail for [TodoAdded], an
    occupied slot for [TodoToggled] (with the negated flag of that slot) and
    for [TodoRemoved]. *)
Definition event_fits (l : list Todo) (e : Event) : bool :=
  match e with
  | TodoAdded id _ => id =? Z.of_nat (length l)
  | TodoToggled id c =>
      match l !! Z.to_nat id with
      | Some t => (0 <=? id) && Bool.eqb c (negb (completed t))
      | None => false
      end
  | TodoRemoved id => (0 <=? id) && (id <? Z.of_nat (length l))
  end.

Fixpoint log_fits (l : list Todo) (log : list Event) : bool :=
  match log with
  | [] => true
  | e :: log' => event_fits l e && log_fits (replay_event l e) log'
  end.

(** The texts handed to [addTodo] in a sequence of calls, in call order. *)
Definition added_text (c : Call) : option string :=
  match c with CallAddTodo _text => Some _text | _ => None end.

Definition added_texts (cs : list Call) : list string := omap added_text cs.

(** * The client: the handlers of [src/TodoList.js]

    The React component keeps seven state variables and talks to the
    contract through an ethers [Contract] object.  Each handler is an
    [async] function; it is modelled by the state it leaves behind once it
    has run to completion, every [setX(v)] overwriting one variable.  What
    the awaited calls answer is not decided by this file: the contract object
    is an interface whose methods return a resolved value or a rejection,
    of which the handlers only ever read [err.message]. *)

Module Client.

Inductive awaited (A : Type) : Type :=
| Resolved (a : A)
| Rejected (message : string).
Arguments Resolved {A} a.
Arguments Rejected {A} message.

(** The ethers contract object built from [ABI], acting on a backend of
    type [B].  A [send_] method stands for [await contract.f(..)] followed
    by [await tx.wait()]; [call_getTodos] answers [None] when the value is
    not an array; [call_getTodoCount] stands for
    [(await contract.getTodoCount()).toNumber()]. *)
Record Contract (B : Type) : Type := mkContract {
  send_addTodo : string -> B -> awaited unit * B;
  send_toggleTodo : Z -> B -> awaited unit * B;
  send_removeTodo : Z -> B -> awaited unit * B;
  call_getTodos : B -> awaited (option (list Todo)) * B;
  call_getTodoCount : B -> awaited Z * B
}.
Arguments send_addTodo {B} _ _ _.
Arguments send_toggleTodo {B} _ _ _.
Arguments send_removeTodo {B} _ _ _.
Arguments call_getTodos {B} _ _.
Arguments call_getTodoCount {B} _ _.

(** The [useState] variables of the component, and what has been written
    with [console.error] (label and message), which is not React state.
    [contract] is [true] once [setContract] has stored the object. *)
Record View : Type := mkView {
  todos : list Todo;
  newTodo : string;
  loading : bool;
  error : option string;
  contract : bool;
  todoCount : Z;
  transactionPending : bool;
  console : list (string * string)
}.

(** The values passed to [useState]. *)
Definition mount : View := mkView [] "" true None false 0 false [].

Definition setTodos (x : list Todo) (v : View) : View :=
  mkView x (newTodo v) (loading v) (error v) (contract v) (todoCount v)
         (transactionPending v) (console v).
Definition setNewTodo (x : string) (v : View) : View :=
  mkView (todos v) x (loading v) (error v) (contract v) (todoCount v)
         (transactionPending v) (console v).
Definition setLoading (x : bool) (v : View) : View :=
  mkView (todos v) (newTodo v) x (error v) (contract v) (todoCount v)
         (transactionPending v) (console v).
Definition setError (x : option string) (v : View) : View :=
  mkView (todos v) (newTodo v) (loading v) x (contract v) (todoCount v)
         (transactionPending v) (console v).
Definition setContract (x : bool) (v : View) : View :=
  mkView (todos v) (newTodo v) (loading v) (error v) x (todoCount v)
         (transactionPending v) (console v).
Definition setTodoCount (x : Z) (v : View) : View :=
  mkView (todos v) (newTodo v) (loading v) (error v) (contract v) x
         (transactionPending v) (console v).
Definition setTransactionPending (x : bool) (v : View) : View :=
  mkView (todos v) (newTodo v) (loading v) (error v) (contract v) (todoCount v)
         x (console v).
Definition console_error (label message : string) (v : View) : View :=
  mkView (todos v) (newTodo v) (loading v) (error v) (contract v) (todoCount v)
         (transactionPending v) (console v ++ [(label, message)]).

(** [handleError(error, customMessage)] *)
Definition handleError (message customMessage : string) (v : View) : View :=
  let v := console_error customMessage message v in
  let v := setError (Some (customMessage ++ ": " ++ message)%string) v in
  setLoading false v.

(** [initContract]: [signer] tells whether a signer is there, [built] what
    [new ethers.Contract(..)] did. *)
Definition initContract (signer : bool) (built : awaited unit) (v : View) : View :=
  if negb signer then v
  else match built with
       | Resolved _ => setContract true v
       | Rejected m => handleError m "Failed to initialize contract" v
       end.

Section Handlers.
Context {B : Type} (K : Contract B).
(** [String.prototype.trim] *)
Variable trim : string -> string.

(** [checkTodoCount] *)
Definition checkTodoCount (v : View) (b : B) : View * B :=
  if negb (contract v) then (v, b)
  else match call_getTodoCount K b with
       | (Resolved count, b') => (setTodoCount count v, b')
       | (Rejected m, b') => (console_error "Error in getTodoCount:" m v, b')
       end.

(** [fetchTodos] *)
Definition fetchTodos (v : View) (b : B) : View * B :=
  if negb (contract v) then (v, b)
  else
    let v := setLoading true v in
    let '(v, b) :=
      match call_getTodos K b with
      | (Resolved fetchedTodos, b') =>
          let v := setTodos (match fetchedTodos with
                             | Some l => l
                             | None => []
                             end) v in
          let v := setError None v in
          checkTodoCount v b'
      | (Rejected m, b') => (handleError m "Failed to fetch todos" v, b')
      end in
    (setLoading false v, b).

(** [addTodo] *)
Definition addTodo (v : View) (b : B) : View * B :=
  if String.eqb (trim (newTodo v)) "" || negb (contract v) then (v, b)
  else
    let text := newTodo v in
    let v := setTransactionPending true v in
    let '(v, b) :=
      match send_addTodo K text b with
      | (Resolved _, b') =>
          let v := setNewTodo "" v in
          let '(v, b'') := fetchTodos v b' in
          (setError None v, b'')
      | (Rejected m, b') => (handleError m "Failed to add todo" v, b')
      end in
    (setTransactionPending false v, b).

(** [toggleTodo] *)
Definition toggleTodo (index : Z) (v : View) (b : B) : View * B :=
  if negb (contract v) then (v, b)
  else
    let v := setTransactionPending true v in
    let '(v, b) :=
      match send_toggleTodo K index b with
      | (Resolved _, b') =>
          let '(v, b'') := fetchTodos v b' in
          (setError None v, b'')
      | (Rejected m, b') => (handleError m "Failed to toggle todo" v, b')
      end in
    (setTransactionPending false v, b).

(** [removeTodo] *)
Definition removeTodo (index : Z) (v : View) (b : B) : View * B :=
  if negb (contract v) then (v, b)
  else
    let v := setTransactionPending true v in
    let '(v, b) :=
      match send_removeTodo K index b with
      | (Resolved _, b') =>
          let '(v, b'') := fetchTodos v b' in
          (setError None v, b'')
      | (Rejected m, b') => (handleError m "Failed to remove todo" v, b')
      end in
    (setTransactionPending false v, b).

(** What the returned JSX disables: the text input and every row while
    [loading || transactionPending], the add button also while the input
    is blank. *)
Definition controlsDisabled (v : View) : bool :=
  loading v || transactionPending v.

Definition addButtonDisabled (v : View) : bool :=
  controlsDisabled v || String.eqb (trim (newTodo v)) "".
(** The three things a user can do, named after the props they come in by
    ([onSubmit], [onToggle(index)], [onRemove(index)]), with the handler,
    the contract method and the [customMessage] each one uses. *)
Inductive Action : Type :=
| Submit
| Toggle (index : Z)
| Remove (index : Z).

Definition handle (a : Action) (v : View) (b : B) : View * B :=
  match a with
  | Submit => addTodo v b
  | Toggle index => toggleTodo index v b
  | Remove index => removeTodo index v b
  end.

Definition send (a : Action) (v : View) (b : B) : awaited unit * B :=
  match a with
  | Submit => send_addTodo K (newTodo v) b
  | Toggle index => send_toggleTodo K index b
  | Remove index => send_removeTodo K index b
  end.

Definition customMessage (a : Action) : string :=
  match a with
  | Submit => "Failed to add todo"
  | Toggle _ => "Failed to toggle todo"
  | Remove _ => "Failed to remove todo"
  end.

Definition passes_guard (a : Action) (v : View) : bool :=
  contract v &&
  match a with
  | Submit => negb (String.eqb (trim (newTodo v)) "")
  | _ => true
  end.
End Handlers.

End Client.

(** A contract object whose calls reach the contract modelled above
    unaltered, with no other account transacting in between.  How a failure
    is worded ([describe]) and what [toNumber] makes of a [uint256] are left
    to ethers. *)
Definition relay_send (fuel : nat) (describe : Failure -> string) (c : Call)
    (s : State) : Client.awaited unit * State :=
  match transact (dispatch fuel c) s with
  | (Ok _, s') => (Client.Resolved tt, s')
  | (Fail f, s') => (Client.Rejected (describe f), s')
  end.

Definition relay (fuel : nat) (describe : Failure -> string)
    (toNumber : Z -> Client.awaited Z) : Client.Contract State :=
  Client.mkContract State
    (fun _text => relay_send fuel describe (CallAddTodo _text))
    (fun _index => relay_send fuel describe (CallToggleTodo _index))
    (fun _index => relay_send fuel describe (CallRemoveTodo _index))
    (fun s => match transact getTodos s with
              | (Ok l, s') => (Client.Resolved (Some l), s')
              | (Fail f, s') => (Client.Rejected (describe f), s')
              end)
    (fun s => match transact getTodoCount s with
              | (Ok n, s') => (toNumber n, s')
              | (Fail f, s') => (Client.Rejected (describe f), s')
              end).

(** The contract call a user action turns into. *)
Definition call_of (a : Client.Action) (v : Client.View) : Call :=
  match a with
  | Client.Submit => CallAddTodo (Client.newTodo v)
  | Client.Toggle index => CallToggleTodo index
  | Client.Remove index => CallRemoveTodo index
  end.

(** A contract object whose transactions are accepted but whose reads time
    out, as when the node drops the connection after mining. *)
Definition reads_time_out : Client.Contract unit :=
  Client.mkContract unit
    (fun _ b => (Client.Resolved tt, b))
    (fun _ b => (Client.Resolved tt, b))
    (fun _ b => (Client.Resolved tt, b))
    (fun b => (Client.Rejected "timeout", b))
    (fun b => (Client.Rejected "timeout", b)).

(** * Properties *)

(** The scenario of the specification: two appends, a toggle, a removal and
    an out-of-range toggle. *)
Example scenario :
  let s1 := step 0 initial (CallAddTodo "a") in
  let s2 := step 0 s1 (CallAddTodo "b") in
  let s3 := step 0 s2 (CallToggleTodo 0) in
  let s4 := step 1 s3 (CallRemoveTodo 0) in
  fst (getTodoCount s1) = Ok 1 /\ fst (getTodoCount s2) = Ok 2 /\
  todos s3 = [mkTodo "a" true; mkTodo "b" false] /\
  todos s4 = [mkTodo "b" false] /\
  transact (dispatch 1 (CallToggleTodo 5)) s4
    = (Fail (Revert "Todo does not exist"), s4) /\
  events s4 = [TodoAdded 0 "a"; TodoAdded 1 "b"; TodoToggled 0 true; TodoRemoved 0].
Proof. vm_compute. repeat split. Qed.

(** ** How each function runs *)

Ltac unfold_m :=
  unfold addTodo, toggleTodo, removeTodo, getTodos, getTodoCount,
    todos_getter, todos_set_completed, todos_push, todos_pop, todos_length,
    todos_get, todos_set, emit, require, checked_sub, checked_add,
    in_bounds, bind, ret, fail; cbn [todos events fst snd].

Lemma in_bounds_true i s :
  0 <= i < Z.of_nat (length (todos s)) -> in_bounds i s = true.
Proof. intros H. unfold in_bounds. apply andb_true_intro. lia. Qed.

Lemma in_bounds_false i s :
  ~ (0 <= i < Z.of_nat (length (todos s))) -> in_bounds i s = false.
Proof.
  intros H. unfold in_bounds.
  destruct (0 <=? i) eqn:E1, (i <? Z.of_nat (length (todos s))) eqn:E2;
    try reflexivity.
  exfalso. apply H. lia.
Qed.

Lemma todos_get_ok i s t :
  0 <= i -> todos s !! Z.to_nat i = Some t -> todos_get i s = (Ok t, s).
Proof.
  intros Hi Ht. unfold todos_get.
  rewrite in_bounds_true, Ht; [reflexivity|].
  apply lookup_lt_Some in Ht. lia.
Qed.

Lemma todos_set_ok i t s :
  0 <= i < Z.of_nat (length (todos s)) ->
  todos_set i t s = (Ok tt, mkState (<[Z.to_nat i := t]> (todos s)) (events s)).
Proof. intros Hi. unfold todos_set. now rewrite in_bounds_true. Qed.

Lemma addTodo_run _text s :
  addTodo _text s =
    (Ok tt, mkState (todos s ++ [mkTodo _text false])
                    (events s ++ [TodoAdded (Z.of_nat (length (todos s))) _text])).
Proof.
  unfold_m. rewrite length_app. cbn [length].
  destruct (Z.ltb_spec (Z.of_nat (length (todos s) + 1)) 1) as [H|H]; [lia|].
  replace (Z.of_nat (length (todos s) + 1) - 1)
    with (Z.of_nat (length (todos s))) by lia.
  reflexivity.
Qed.

Lemma toggleTodo_run _index s t :
  0 <= _index ->
  todos s !! Z.to_nat _index = Some t ->
  toggleTodo _index s =
    (Ok tt, mkState (<[Z.to_nat _index := mkTodo (text t) (negb (completed t))]> (todos s))
                    (events s ++ [TodoToggled _index (negb (completed t))])).
Proof.
  intros Hi Ht. pose proof (lookup_lt_Some _ _ _ Ht) as Hlt.
  unfold toggleTodo, todos_set_completed.
  unfold bind at 1. unfold todos_length at 1.
  destruct (Z.ltb_spec _index (Z.of_nat (length (todos s)))) as [H|H]; [|lia].
  unfold bind at 1. unfold require, ret at 1.
  unfold bind at 1. rewrite (todos_get_ok _ _ _ Hi Ht).
  unfold bind at 1. unfold bind at 1. rewrite (todos_get_ok _ _ _ Hi Ht).
  rewrite todos_set_ok by lia.
  unfold bind. erewrite todos_get_ok; [ | lia | ]; cycle 1.
  { cbn [todos]. apply list_lookup_insert_eq. lia. }
  reflexivity.
Qed.

Lemma toggleTodo_revert _index s :
  Z.of_nat (length (todos s)) <= _index ->
  toggleTodo _index s = (Fail (Revert "Todo does not exist"), s).
Proof.
  intros H. unfold_m.
  destruct (Z.ltb_spec _index (Z.of_nat (length (todos s)))); [lia|reflexivity].
Qed.

Lemma removeTodo_revert fuel _index s :
  Z.of_nat (length (todos s)) <= _index ->
  removeTodo fuel _index s = (Fail (Revert "Todo does not exist"), s).
Proof.
  intros H. unfold removeTodo, bind, todos_length, require, fail.
  destruct (Z.ltb_spec _index (Z.of_nat (length (todos s)))); [lia|reflexivity].
Qed.

(** ** The shifting loop *)

Lemma shift_loop_unfold fuel i s :
  shift_loop fuel i s =
    (let! n := todos_length in
     let! bound := checked_sub n 1 in
     if i <? bound then
       match fuel with
       | O => fail OutOfFuel
       | S fuel' =>
           let! j := checked_add i 1 in
           let! t := todos_get j in
           todos_set i t >>
           let! i' := checked_add i 1 in
           let! k := shift_loop fuel' i' in
           ret (S k)
       end
     else ret O) s.
Proof. destruct fuel; reflexivity. Qed.

Lemma last_cons_default {A} (l : list A) : forall y d d',
  List.last (y :: l) d = List.last (y :: l) d'.
Proof.
  induction l as [|z l IH]; intros y d d'; [reflexivity|].
  change (List.last (z :: l) d = List.last (z :: l) d'). apply IH.
Qed.

(** The loop stops at once when nothing follows the slot it starts at. *)
Lemma shift_loop_exit pre x ev fuel :
  shift_loop fuel (Z.of_nat (length pre)) (mkState (pre ++ [x]) ev) =
    (Ok O, mkState (pre ++ [x]) ev).
Proof.
  rewrite shift_loop_unfold.
  unfold bind, todos_length, checked_sub, ret, fail. cbn [todos].
  rewrite length_app. cbn [length].
  destruct (Z.ltb_spec (Z.of_nat (length pre + 1)) 1); [lia|].
  destruct (Z.ltb_spec (Z.of_nat (length pre)) (Z.of_nat (length pre + 1) - 1));
    [lia|reflexivity].
Qed.

(** With something to move and no fuel left, it gives up. *)
Lemma shift_loop_dry pre x y rest ev :
  shift_loop 0 (Z.of_nat (length pre)) (mkState (pre ++ x :: y :: rest) ev) =
    (Fail OutOfFuel, mkState (pre ++ x :: y :: rest) ev).
Proof.
  rewrite shift_loop_unfold.
  unfold bind, todos_length, checked_sub, ret, fail. cbn [todos].
  rewrite length_app. cbn [length].
  destruct (Z.ltb_spec (Z.of_nat (length pre + S (S (length rest)))) 1); [lia|].
  destruct (Z.ltb_spec (Z.of_nat (length pre))
              (Z.of_nat (length pre + S (S (length rest))) - 1)); [reflexivity|lia].
Qed.

(** One execution of the body: unless [i + 1] overflows, slot [i] receives
    the element of slot [i + 1] and the loop goes on from [i + 1]. *)
Lemma shift_loop_body pre x y rest ev fuel :
  shift_loop (S fuel) (Z.of_nat (length pre)) (mkState (pre ++ x :: y :: rest) ev) =
    if uint256_max <? Z.of_nat (length pre) + 1
    then (Fail (Panic panic_arith), mkState (pre ++ x :: y :: rest) ev)
    else (let! k := shift_loop fuel (Z.of_nat (length (pre ++ [y]))) in ret (S k))
           (mkState ((pre ++ [y]) ++ y :: rest) ev).
Proof.
  rewrite shift_loop_unfold.
  unfold bind at 1. unfold todos_length at 1. cbn [todos].
  unfold bind at 1. unfold checked_sub, ret at 1.
  rewrite length_app. cbn [length].
  destruct (Z.ltb_spec (Z.of_nat (length pre + S (S (length rest)))) 1); [lia|].
  destruct (Z.ltb_spec (Z.of_nat (length pre))
              (Z.of_nat (length pre + S (S (length rest))) - 1)); [|lia].
  unfold bind at 1. unfold checked_add at 1.
  destruct (Z.ltb_spec uint256_max (Z.of_nat (length pre) + 1)); [reflexivity|].
  unfold ret at 1. unfold bind at 1.
  rewrite (todos_get_ok _ _ y); [ | lia | ]; cycle 1.
  { cbn [todos].
    replace (Z.to_nat (Z.of_nat (length pre) + 1)) with (S (length pre)) by lia.
    change (pre ++ x :: y :: rest) with (pre ++ [x] ++ y :: rest).
    rewrite app_assoc. apply list_lookup_middle. rewrite length_app. cbn. lia. }
  unfold bind at 1. rewrite todos_set_ok; cycle 1.
  { cbn [todos]. rewrite length_app. cbn [length]. lia. }
  cbn [todos events]. unfold bind at 1. unfold checked_add.
  destruct (Z.ltb_spec uint256_max (Z.of_nat (length pre) + 1)); [lia|].
  unfold ret at 1. rewrite Nat2Z.id.
  replace (<[length pre := y]> (pre ++ x :: y :: rest))
    with ((pre ++ [y]) ++ y :: rest); cycle 1.
  { rewrite insert_app_r_alt by lia. rewrite Nat.sub_diag.
    cbn. now rewrite <- app_assoc. }
  replace (Z.of_nat (length pre) + 1) with (Z.of_nat (length (pre ++ [y])))
    by (rewrite length_app; cbn [length]; lia).
  reflexivity.
Qed.

Lemma shift_loop_body_ok pre x y rest ev fuel :
  Z.of_nat (length (pre ++ x :: y :: rest)) <= uint256_max ->
  shift_loop (S fuel) (Z.of_nat (length pre)) (mkState (pre ++ x :: y :: rest) ev) =
    (let! k := shift_loop fuel (Z.of_nat (length (pre ++ [y]))) in ret (S k))
      (mkState ((pre ++ [y]) ++ y :: rest) ev).
Proof.
  intros Hmax. rewrite length_app in Hmax. cbn [length] in Hmax.
  rewrite shift_loop_body.
  destruct (Z.ltb_spec uint256_max (Z.of_nat (length pre) + 1)); [lia|reflexivity].
Qed.

(** Whenever the loop finishes, it has done exactly this, whatever the fuel
    and the size of the array. *)
Lemma shift_loop_sound rest : forall pre x ev fuel k s',
  shift_loop fuel (Z.of_nat (length pre)) (mkState (pre ++ x :: rest) ev) = (Ok k, s') ->
  k = length rest /\ s' = mkState (pre ++ rest ++ [List.last rest x]) ev.
Proof.
  induction rest as [|y rest IH]; intros pre x ev fuel k s' Hrun.
  - rewrite shift_loop_exit in Hrun. now inversion Hrun.
  - destruct fuel as [|fuel]; [rewrite shift_loop_dry in Hrun; discriminate|].
    rewrite shift_loop_body in Hrun.
    destruct (uint256_max <? Z.of_nat (length pre) + 1); [discriminate|].
    unfold bind in Hrun.
    destruct (shift_loop fuel _ _) as [[k0|f] s0] eqn:E; [|discriminate].
    apply IH in E as [-> ->]. unfold ret in Hrun. inversion Hrun; subst.
    split; [reflexivity|]. f_equal.
    rewrite <- app_assoc. cbn [app].
    destruct rest as [|z rest]; [reflexivity|].
    rewrite (last_cons_default rest z y x). reflexivity.
Qed.

(** Started at the slot of [x] in [pre ++ x :: rest], the loop copies every
    element of [rest] one slot down and leaves the last element where it
    was; the body runs once per element of [rest]. *)
Lemma shift_loop_run rest : forall pre x ev fuel,
  Z.of_nat (length (pre ++ x :: rest)) <= uint256_max ->
  (length rest <= fuel)%nat ->
  shift_loop fuel (Z.of_nat (length pre)) (mkState (pre ++ x :: rest) ev) =
    (Ok (length rest), mkState (pre ++ rest ++ [List.last rest x]) ev).
Proof.
  induction rest as [|y rest IH]; intros pre x ev fuel Hmax Hfuel.
  - apply shift_loop_exit.
  - destruct fuel as [|fuel]; [cbn [length] in Hfuel; lia|].
    cbn [length] in Hfuel.
    rewrite shift_loop_body_ok by exact Hmax.
    unfold bind. rewrite IH; cycle 1.
    { rewrite !length_app in *. cbn [length] in *. lia. }
    { lia. }
    unfold ret. cbn [length]. do 2 f_equal.
    rewrite <- app_assoc. cbn [app].
    destruct rest as [|z rest]; [reflexivity|].
    rewrite (last_cons_default rest z y x). reflexivity.
Qed.

(** With less fuel than there are elements to move the loop cannot finish. *)
Lemma shift_loop_starved rest : forall pre x ev fuel,
  Z.of_nat (length (pre ++ x :: rest)) <= uint256_max ->
  (fuel < length rest)%nat ->
  fst (shift_loop fuel (Z.of_nat (length pre)) (mkState (pre ++ x :: rest) ev))
    = Fail OutOfFuel.
Proof.
  induction rest as [|y rest IH]; intros pre x ev fuel Hmax Hfuel;
    cbn [length] in Hfuel; [lia|].
  destruct fuel as [|fuel]; [now rewrite shift_loop_dry|].
  rewrite shift_loop_body_ok by exact Hmax.
  unfold bind.
  specialize (IH (pre ++ [y]) y ev fuel).
  destruct (shift_loop fuel _ _) as [[k|f] s'].
  - cbn [fst] in IH. discriminate IH.
    + rewrite !length_app in *. cbn [length] in *. lia.
    + lia.
  - cbn [fst] in *. apply IH.
    + rewrite !length_app in *. cbn [length] in *. lia.
    + lia.
Qed.

(** Started below zero (no [uint256] is), the loop cannot finish. *)
Lemma shift_loop_negative fuel i s k s' :
  i < 0 -> shift_loop fuel i s <> (Ok k, s').
Proof.
  intros Hneg. rewrite shift_loop_unfold.
  unfold bind at 1. unfold todos_length at 1.
  unfold bind at 1. unfold checked_sub.
  destruct (Z.ltb_spec (Z.of_nat (length (todos s))) 1); [discriminate|].
  unfold ret at 1.
  destruct (Z.ltb_spec i (Z.of_nat (length (todos s)) - 1)); [|lia].
  destruct fuel as [|fuel]; [discriminate|].
  unfold bind at 1. unfold checked_add at 1.
  destruct (Z.ltb_spec uint256_max (i + 1)); [discriminate|].
  unfold ret at 1. unfold bind at 1. unfold todos_get.
  destruct (in_bounds (i + 1) s); [|discriminate].
  destruct (todos s !! Z.to_nat (i + 1)); [|discriminate].
  unfold bind at 1. unfold todos_set.
  rewrite in_bounds_false by lia. discriminate.
Qed.

(** ** Removing an entry *)

(** Every in-range position splits the array around its entry. *)
Lemma split_at (ts : list Todo) (p : Z) :
  0 <= p < Z.of_nat (length ts) ->
  exists pre x rest,
    ts = pre ++ x :: rest /\ p = Z.of_nat (length pre) /\
    ts !! Z.to_nat p = Some x /\
    pre = take (Z.to_nat p) ts /\ rest = drop (S (Z.to_nat p)) ts.
Proof.
  intros Hp.
  destruct (lookup_lt_is_Some_2 ts (Z.to_nat p)) as [x Hx]; [lia|].
  exists (take (Z.to_nat p) ts), x, (drop (S (Z.to_nat p)) ts).
  split; [symmetry; now apply take_drop_middle|].
  split; [rewrite length_take; lia|]. auto.
Qed.

(** [removeTodo] at the slot of [x] in [pre ++ x :: rest]: the outcome is
    that of the loop, and a finished loop leaves [pre ++ rest]. *)
Lemma removeTodo_at pre x rest ev fuel :
  removeTodo fuel (Z.of_nat (length pre)) (mkState (pre ++ x :: rest) ev) =
    match shift_loop fuel (Z.of_nat (length pre)) (mkState (pre ++ x :: rest) ev) with
    | (Ok _, _) =>
        (Ok tt, mkState (pre ++ rest) (ev ++ [TodoRemoved (Z.of_nat (length pre))]))
    | (Fail f, s') => (Fail f, s')
    end.
Proof.
  unfold removeTodo.
  unfold bind at 1. unfold todos_length at 1. cbn [todos].
  destruct (Z.ltb_spec (Z.of_nat (length pre)) (Z.of_nat (length (pre ++ x :: rest))));
    [| rewrite length_app in *; cbn [length] in *; lia].
  unfold bind at 1. unfold require, ret at 1.
  unfold bind at 1.
  destruct (shift_loop fuel _ _) as [[k|f] s0] eqn:E; [|reflexivity].
  apply shift_loop_sound in E as [_ ->].
  unfold bind, todos_pop, emit. cbn [todos events].
  rewrite app_assoc.
  destruct ((pre ++ rest) ++ [List.last rest x]) eqn:E.
  { apply (f_equal length) in E. rewrite length_app in E. cbn in E. lia. }
  rewrite <- E. rewrite removelast_last. reflexivity.
Qed.

Lemma removeTodo_run _index s fuel :
  storage_ok s ->
  0 <= _index < Z.of_nat (length (todos s)) ->
  (length (todos s) - 1 - Z.to_nat _index <= fuel)%nat ->
  removeTodo fuel _index s =
    (Ok tt, mkState (delete (Z.to_nat _index) (todos s))
                    (events s ++ [TodoRemoved _index])).
Proof.
  intros [_ Hmax] Hp Hfuel. destruct s as [ts ev]. cbn [todos events] in *.
  destruct (split_at ts _index Hp) as (pre & x & rest & Hts & Hpre & _ & _ & _).
  subst ts _index. rewrite Nat2Z.id, delete_middle.
  rewrite removeTodo_at, shift_loop_run; [reflexivity|exact Hmax|].
  rewrite length_app in Hfuel. cbn [length] in Hfuel. lia.
Qed.

(** A call of [removeTodo] that goes through was in range and deleted
    exactly that entry. *)
Lemma removeTodo_sound fuel _index s u s' :
  removeTodo fuel _index s = (Ok u, s') ->
  0 <= _index < Z.of_nat (length (todos s)) /\
  s' = mkState (delete (Z.to_nat _index) (todos s))
               (events s ++ [TodoRemoved _index]).
Proof.
  intros Hrun.
  destruct (Z.le_gt_cases (Z.of_nat (length (todos s))) _index) as [Hge|Hlt].
  { rewrite removeTodo_revert in Hrun by exact Hge. discriminate. }
  destruct (Z.lt_ge_cases _index 0) as [Hneg|Hnn].
  { exfalso. unfold removeTodo in Hrun.
    unfold bind at 1 in Hrun. unfold todos_length at 1 in Hrun.
    destruct (Z.ltb_spec _index (Z.of_nat (length (todos s)))); [|lia].
    unfold bind at 1 in Hrun. unfold require, ret at 1 in Hrun.
    unfold bind at 1 in Hrun.
    destruct (shift_loop fuel _index s) as [[k|f] s0] eqn:E; [|discriminate].
    now apply shift_loop_negative in E. }
  split; [lia|].
  destruct s as [ts ev]. cbn [todos events] in *.
  destruct (split_at ts _index) as (pre & x & rest & Hts & Hpre & _ & _ & _); [lia|].
  subst ts _index. rewrite Nat2Z.id, delete_middle.
  rewrite removeTodo_at in Hrun.
  destruct (shift_loop fuel _ _) as [[k|f] s0]; [|discriminate].
  now inversion Hrun.
Qed.

(** ** Toggling an entry *)

(** A call of [toggleTodo] that goes through was in range. *)
Lemma toggleTodo_sound _index s u s' :
  toggleTodo _index s = (Ok u, s') ->
  0 <= _index < Z.of_nat (length (todos s)).
Proof.
  intros Hrun.
  destruct (Z.le_gt_cases (Z.of_nat (length (todos s))) _index) as [Hge|Hlt].
  { rewrite toggleTodo_revert in Hrun by exact Hge. discriminate. }
  destruct (Z.lt_ge_cases _index 0) as [Hneg|Hnn]; [exfalso|lia].
  unfold toggleTodo in Hrun.
  unfold bind at 1 in Hrun. unfold todos_length at 1 in Hrun.
  destruct (Z.ltb_spec _index (Z.of_nat (length (todos s)))); [|lia].
  unfold bind at 1 in Hrun. unfold require, ret at 1 in Hrun.
  unfold bind at 1 in Hrun. unfold todos_get at 1 in Hrun.
  rewrite in_bounds_false in Hrun by lia. discriminate.
Qed.

(** ** Transactions and the event log *)

Lemma step_effect fuel s c : Effect s c (step fuel s c).
Proof.
  unfold step, transact, dispatch.
  destruct c as [_text|_index|_index| | |i]; unfold bind at 1.
  - rewrite addTodo_run. cbn. constructor.
  - destruct (toggleTodo _index s) as [[u|f] s'] eqn:E; [|constructor].
    pose proof (toggleTodo_sound _ _ _ _ E) as Hp.
    destruct (lookup_lt_is_Some_2 (todos s) (Z.to_nat _index)) as [t Ht]; [lia|].
    rewrite (toggleTodo_run _ _ t) in E by (lia || exact Ht).
    inversion E; subst. cbn. now constructor.
  - destruct (removeTodo fuel _index s) as [[u|f] s'] eqn:E; [|constructor].
    apply removeTodo_sound in E as [Hp ->]. cbn. now constructor.
  - cbn. constructor.
  - cbn. constructor.
  - unfold todos_getter, todos_get.
    destruct (in_bounds i s); [|constructor].
    destruct (todos s !! Z.to_nat i); constructor.
Qed.

Lemma run_snoc fuel cs c s :
  run fuel (cs ++ [c]) s = step fuel (run fuel cs s) c.
Proof. unfold run. now rewrite fold_left_app. Qed.

Lemma replay_snoc log e : replay (log ++ [e]) = replay_event (replay log) e.
Proof. unfold replay. now rewrite fold_left_app. Qed.

Lemma alter_as_insert (f : Todo -> Todo) (l : list Todo) i t :
  l !! i = Some t -> alter f i l = <[i := f t]> l.
Proof.
  intros Ht. rewrite list_insert_alter.
  apply list_alter_ext; [|reflexivity].
  intros x Hx. rewrite Ht in Hx. now inversion Hx.
Qed.

(** Replaying the log mirrors every effect a transaction can have. *)
Lemma effect_replay s c s' :
  Effect s c s' -> replay (events s) = todos s -> replay (events s') = todos s'.
Proof.
  intros [c0|_text|_index t Hp Ht|_index Hp] Hinv; cbn [todos events];
    try exact Hinv; rewrite replay_snoc, Hinv; cbn [replay_event].
  - reflexivity.
  - now rewrite (alter_as_insert _ _ _ t Ht).
  - reflexivity.
Qed.

Lemma run_replay fuel cs :
  replay (events (run fuel cs initial)) = todos (run fuel cs initial).
Proof.
  induction cs as [|c cs IH] using rev_ind; [reflexivity|].
  rewrite run_snoc. eapply effect_replay; [apply step_effect|exact IH].
Qed.

(** The array never grows by more than one entry per transaction. *)
Lemma effect_length s c s' :
  Effect s c s' -> (length (todos s') <= S (length (todos s)))%nat.
Proof.
  intros [c0|_text|_index t Hp Ht|_index Hp]; cbn [todos].
  - lia.
  - rewrite length_app. cbn. lia.
  - rewrite length_insert. lia.
  - rewrite length_delete by (apply lookup_lt_is_Some_2; lia). lia.
Qed.

Lemma run_length fuel cs :
  (length (todos (run fuel cs initial)) <= length cs)%nat.
Proof.
  induction cs as [|c cs IH] using rev_ind; [cbn; lia|].
  rewrite run_snoc, length_app. cbn [length].
  pose proof (effect_length _ _ _ (step_effect fuel (run fuel cs initial) c)). lia.
Qed.

(** After fewer than [2^256] transactions the array still fits in storage. *)
Lemma run_storage_ok fuel cs :
  Z.of_nat (length cs) <= uint256_max -> storage_ok (run fuel cs initial).
Proof.
  intros H. pose proof (run_length fuel cs). unfold storage_ok, is_uint256. lia.
Qed.

(** ** Claims *)

(** C1 (event fidelity): after any sequence of calls from the empty store,
    replaying the emitted events in order (Added puts [{text, false}] at the
    tail, Toggled sets the flag at its position to the recorded value,
    Removed deletes at its position and closes the gap) gives exactly the
    array that [getTodos] returns. *)
Theorem event_fidelity (fuel : nat) (cs : list Call) :
  let s := run fuel cs initial in
  getTodos s = (Ok (replay (events s)), s).
Proof. cbn. unfold getTodos. now rewrite run_replay. Qed.

(** C2 (bounds rejection): for a [uint256] position [p] with
    [p >= getTodoCount()] (no [uint256] is below zero), [toggleTodo(p)] and
    [removeTodo(p)] fail with the revert "Todo does not exist"; nothing had
    been written or emitted when they failed, and the state after the
    transaction, hence the count, the array and the event log, is the state
    before it. *)
Theorem bounds_rejection (fuel : nat) (s : State) (p : Z) :
  is_uint256 p ->
  p < 0 \/ Z.of_nat (length (todos s)) <= p ->
  toggleTodo p s = (Fail (Revert "Todo does not exist"), s) /\
  removeTodo fuel p s = (Fail (Revert "Todo does not exist"), s) /\
  transact (dispatch fuel (CallToggleTodo p)) s
    = (Fail (Revert "Todo does not exist"), s) /\
  transact (dispatch fuel (CallRemoveTodo p)) s
    = (Fail (Revert "Todo does not exist"), s) /\
  (forall c, c = CallToggleTodo p \/ c = CallRemoveTodo p ->
     getTodoCount (step fuel s c) = getTodoCount s /\
     getTodos (step fuel s c) = getTodos s /\
     events (step fuel s c) = events s).
Proof.
  intros [Hlo _] [Hneg|Hge]; [lia|].
  pose proof (toggleTodo_revert p s Hge) as Ht.
  pose proof (removeTodo_revert fuel p s Hge) as Hr.
  assert (Htt : transact (dispatch fuel (CallToggleTodo p)) s
                = (Fail (Revert "Todo does not exist"), s)).
  { unfold transact, dispatch, bind. now rewrite Ht. }
  assert (Htr : transact (dispatch fuel (CallRemoveTodo p)) s
                = (Fail (Revert "Todo does not exist"), s)).
  { unfold transact, dispatch, bind. now rewrite Hr. }
  repeat split; try assumption;
    destruct H as [-> | ->]; unfold step; rewrite ?Htt, ?Htr; reflexivity.
Qed.

Lemma bounds_rejection_witness :
  toggleTodo 5 (mkState [mkTodo "b" false] [TodoAdded 0 "b"])
    = (Fail (Revert "Todo does not exist"),
       mkState [mkTodo "b" false] [TodoAdded 0 "b"]).
Proof.
  refine (proj1 (bounds_rejection 3 (mkState [mkTodo "b" false] [TodoAdded 0 "b"]) 5 _ _)).
  - unfold is_uint256. split; [lia | vm_compute; discriminate].
  - right. vm_compute. discriminate.
Defined.

(** C3 (remove compaction): for a valid position [p] in a state that fits in
    storage, [removeTodo(p)] succeeds once the loop has fuel for its
    [count - 1 - p] iterations; afterwards the count is one less, every entry
    formerly at a position [i > p] is at [i - 1], every entry at a position
    below [p] is where it was, the array is the old one with slot [p] cut
    out (so the survivors keep their order), and a [TodoRemoved(p)] event
    has been appended. *)
Theorem remove_compaction (fuel : nat) (s : State) (p : Z) :
  storage_ok s ->
  0 <= p < Z.of_nat (length (todos s)) ->
  (length (todos s) - 1 - Z.to_nat p <= fuel)%nat ->
  exists s',
    removeTodo fuel p s = (Ok tt, s') /\
    getTodoCount s' = (Ok (Z.of_nat (length (todos s)) - 1), s') /\
    (forall i, p < i < Z.of_nat (length (todos s)) ->
       todos s' !! Z.to_nat (i - 1) = todos s !! Z.to_nat i) /\
    (forall i, 0 <= i < p -> todos s' !! Z.to_nat i = todos s !! Z.to_nat i) /\
    todos s' = take (Z.to_nat p) (todos s) ++ drop (S (Z.to_nat p)) (todos s) /\
    events s' = events s ++ [TodoRemoved p].
Proof.
  intros Hok Hp Hfuel. eexists. split; [now apply removeTodo_run|].
  cbn [todos events]. repeat split.
  - unfold getTodoCount, todos_length. cbn [todos].
    rewrite length_delete by (apply lookup_lt_is_Some_2; lia).
    do 2 f_equal. lia.
  - intros i Hi. rewrite list_lookup_delete_ge by lia. f_equal. lia.
  - intros i Hi. apply list_lookup_delete_lt. lia.
  - apply delete_take_drop.
Qed.

Lemma remove_compaction_witness :
  exists s',
    removeTodo 2 0 (mkState [mkTodo "a" true; mkTodo "b" false; mkTodo "c" false] [])
      = (Ok tt, s') /\
    todos s' = [mkTodo "b" false; mkTodo "c" false].
Proof.
  destruct (remove_compaction 2
              (mkState [mkTodo "a" true; mkTodo "b" false; mkTodo "c" false] []) 0)
    as (s' & Hrun & _ & _ & _ & Hts & _).
  - unfold storage_ok, is_uint256. cbn. split; [lia | vm_compute; discriminate].
  - cbn. lia.
  - cbn. lia.
  - exists s'. split; [exact Hrun | exact Hts].
Defined.

(** C4 (toggle involution): for a valid position [p], one [toggleTodo(p)]
    sets the flag of the entry at [p] to the negation of what it was, and a
    second one puts the old flag (indeed the old array) back. *)
Theorem toggle_involution (s : State) (p : Z) :
  0 <= p < Z.of_nat (length (todos s)) ->
  exists t s1 s2,
    todos s !! Z.to_nat p = Some t /\
    toggleTodo p s = (Ok tt, s1) /\
    completed <$> todos s1 !! Z.to_nat p = Some (negb (completed t)) /\
    toggleTodo p s1 = (Ok tt, s2) /\
    completed <$> todos s2 !! Z.to_nat p = Some (completed t) /\
    todos s2 = todos s.
Proof.
  intros Hp.
  destruct (lookup_lt_is_Some_2 (todos s) (Z.to_nat p)) as [t Ht]; [lia|].
  exists t. do 2 eexists.
  split; [exact Ht|].
  split; [apply toggleTodo_run; [lia|exact Ht]|].
  assert (Hmid : <[Z.to_nat p := mkTodo (text t) (negb (completed t))]> (todos s)
                   !! Z.to_nat p = Some (mkTodo (text t) (negb (completed t)))).
  { apply list_lookup_insert_eq. lia. }
  cbn [todos]. split; [now rewrite Hmid|].
  split; [apply toggleTodo_run; [lia|exact Hmid]|].
  cbn [todos text completed]. rewrite negb_involutive, list_insert_insert_eq.
  destruct t as [tx c]. cbn [text completed].
  rewrite list_insert_id by exact Ht. now rewrite Ht.
Qed.

Lemma toggle_involution_witness :
  exists t s1 s2,
    todos (mkState [mkTodo "a" false; mkTodo "b" true] []) !! Z.to_nat 1 = Some t /\
    toggleTodo 1 (mkState [mkTodo "a" false; mkTodo "b" true] []) = (Ok tt, s1) /\
    completed <$> todos s1 !! Z.to_nat 1 = Some (negb (completed t)) /\
    toggleTodo 1 s1 = (Ok tt, s2) /\
    completed <$> todos s2 !! Z.to_nat 1 = Some (completed t) /\
    todos s2 = todos (mkState [mkTodo "a" false; mkTodo "b" true] []).
Proof.
  apply (toggle_involution (mkState [mkTodo "a" false; mkTodo "b" true] []) 1).
  cbn. lia.
Defined.

(** C5 (append): for every state and every text, the empty string included,
    [addTodo(text)] succeeds; the new entry [{text, completed = false}] sits
    at position [count], the old entries are untouched, the count has grown
    by one, and a [TodoAdded(count, text)] event has been appended. *)
Theorem append_effect (s : State) (_text : string) :
  exists s',
    addTodo _text s = (Ok tt, s') /\
    todos s' = todos s ++ [mkTodo _text false] /\
    todos_getter (Z.of_nat (length (todos s))) s' = (Ok (mkTodo _text false), s') /\
    getTodoCount s' = (Ok (Z.of_nat (length (todos s)) + 1), s') /\
    events s' = events s ++ [TodoAdded (Z.of_nat (length (todos s))) _text].
Proof.
  eexists. split; [apply addTodo_run|]. cbn [todos events].
  repeat split.
  - unfold todos_getter. apply todos_get_ok; [lia|]. cbn [todos].
    rewrite Nat2Z.id. now apply list_lookup_middle.
  - unfold getTodoCount, todos_length. cbn [todos].
    rewrite length_app. cbn [length]. do 2 f_equal. lia.
Qed.

Lemma step_addTodo fuel s _text :
  step fuel s (CallAddTodo _text) =
    mkState (todos s ++ [mkTodo _text false])
            (events s ++ [TodoAdded (Z.of_nat (length (todos s))) _text]).
Proof. unfold step, transact, dispatch, bind. now rewrite addTodo_run. Qed.

Lemma run_adds fuel texts : forall s,
  todos (run fuel (map CallAddTodo texts) s) =
    todos s ++ map (fun t => mkTodo t false) texts.
Proof.
  induction texts as [|t texts IH]; intros s.
  - cbn. now rewrite app_nil_r.
  - cbn [map run fold_left]. change (fold_left (step fuel) ?l ?a) with (run fuel l a).
    rewrite IH, step_addTodo. cbn [todos map]. now rewrite <- app_assoc.
Qed.

(** C6 (append monotonicity): after [N] calls of [addTodo] from the empty
    store the count is [N] and [getTodos] returns the [N] entries in the
    order they were added, each with [completed = false]. *)
Theorem append_monotonicity (fuel N : nat) (texts : list string) :
  length texts = N ->
  let s := run fuel (map CallAddTodo texts) initial in
  getTodoCount s = (Ok (Z.of_nat N), s) /\
  getTodos s = (Ok (map (fun t => mkTodo t false) texts), s).
Proof.
  intros HN s. subst s.
  unfold getTodoCount, todos_length, getTodos.
  rewrite run_adds. cbn [todos initial app].
  rewrite length_map, HN. split; reflexivity.
Qed.

Lemma append_monotonicity_witness :
  let s := run 0 (map CallAddTodo ["a"; ""; "a"]) initial in
  getTodoCount s = (Ok 3, s) /\
  getTodos s = (Ok [mkTodo "a" false; mkTodo "" false; mkTodo "a" false], s).
Proof.
  apply (append_monotonicity 0 3 ["a"; ""; "a"]). reflexivity.
Defined.

(** C7, as the specification states it, fails: the call hands no position
    back.  On the empty store [addTodo("a")] returns empty return data, not
    the position 0. *)
Lemma addTodo_returns_no_position :
  fst (transact (dispatch 0 (CallAddTodo "a")) initial) = Ok RetNone /\
  fst (transact (dispatch 0 (CallAddTodo "a")) initial) <> Ok (RetUint 0).
Proof. split; [reflexivity | discriminate]. Qed.

(** C7 (amended): for every state and every text, [addTodo(text)] returns
    no value; the position of the new entry, which is the count before the
    call, is carried by the [TodoAdded] event it emits. *)
Theorem append_position_in_event (fuel : nat) (s : State) (_text : string) :
  exists s',
    transact (dispatch fuel (CallAddTodo _text)) s = (Ok RetNone, s') /\
    events s' = events s ++ [TodoAdded (Z.of_nat (length (todos s))) _text] /\
    todos s' !! Z.to_nat (Z.of_nat (length (todos s))) = Some (mkTodo _text false).
Proof.
  eexists. split.
  - unfold transact, dispatch, bind. rewrite addTodo_run. reflexivity.
  - cbn [todos events]. split; [reflexivity|].
    rewrite Nat2Z.id. now apply list_lookup_middle.
Qed.

(** C8 (contiguity): in every state reached from the empty store,
    [getTodoCount] returns the number of entries [getTodos] returns, and the
    positions the array getter answers for are exactly [0 .. count - 1]; the
    count is read off the array, the state holds no counter of its own. *)
Theorem count_is_length (fuel : nat) (cs : list Call) :
  let s := run fuel cs initial in
  exists l n,
    getTodos s = (Ok l, s) /\
    getTodoCount s = (Ok n, s) /\
    n = Z.of_nat (length l) /\
    (forall i, (exists t, todos_getter i s = (Ok t, s)) <-> 0 <= i < n) /\
    (forall i, 0 <= i < n -> is_Some (l !! Z.to_nat i)) /\
    (forall k, is_Some (l !! k) -> 0 <= Z.of_nat k < n).
Proof.
  cbn. set (s := run fuel cs initial).
  exists (todos s), (Z.of_nat (length (todos s))).
  split; [reflexivity|]. split; [reflexivity|]. split; [reflexivity|].
  split; [|split].
  - intros i. split.
    + intros [t Ht]. unfold todos_getter, todos_get in Ht.
      destruct (in_bounds i s) eqn:E; [|discriminate].
      unfold in_bounds in E. apply andb_prop in E. lia.
    + intros Hi.
      destruct (lookup_lt_is_Some_2 (todos s) (Z.to_nat i)) as [t Ht]; [lia|].
      exists t. apply todos_get_ok; [lia|exact Ht].
  - intros i Hi. apply lookup_lt_is_Some_2. lia.
  - intros k Hk. apply lookup_lt_is_Some_1 in Hk. lia.
Qed.

(** ** Termination *)

Lemma shift_loop_fuelled rest : forall pre x ev fuel,
  (length rest <= fuel)%nat ->
  fst (shift_loop fuel (Z.of_nat (length pre)) (mkState (pre ++ x :: rest) ev))
    <> Fail OutOfFuel.
Proof.
  induction rest as [|y rest IH]; intros pre x ev fuel Hfuel.
  - now rewrite shift_loop_exit.
  - cbn [length] in Hfuel. destruct fuel as [|fuel]; [lia|].
    rewrite shift_loop_body.
    destruct (uint256_max <? Z.of_nat (length pre) + 1); [discriminate|].
    unfold bind. specialize (IH (pre ++ [y]) y ev fuel).
    destruct (shift_loop fuel _ _) as [[k|f] s0]; [discriminate|].
    cbn [fst] in *. apply IH. lia.
Qed.

Lemma shift_loop_negative_fuelled fuel i s :
  i < 0 -> (length (todos s) <= fuel)%nat ->
  fst (shift_loop fuel i s) <> Fail OutOfFuel.
Proof.
  intros Hneg Hfuel. rewrite shift_loop_unfold.
  unfold bind at 1. unfold todos_length at 1.
  unfold bind at 1. unfold checked_sub.
  destruct (Z.ltb_spec (Z.of_nat (length (todos s))) 1); [discriminate|].
  unfold ret at 1.
  destruct (Z.ltb_spec i (Z.of_nat (length (todos s)) - 1)); [|lia].
  destruct fuel as [|fuel]; [lia|].
  unfold bind at 1. unfold checked_add at 1.
  destruct (Z.ltb_spec uint256_max (i + 1)); [discriminate|].
  unfold ret at 1. unfold bind at 1. unfold todos_get.
  destruct (in_bounds (i + 1) s); [|discriminate].
  destruct (todos s !! Z.to_nat (i + 1)); [|discriminate].
  unfold bind at 1. unfold todos_set.
  rewrite in_bounds_false by lia. discriminate.
Qed.

Lemma removeTodo_fuelled fuel _index s :
  (length (todos s) <= fuel)%nat ->
  fst (removeTodo fuel _index s) <> Fail OutOfFuel.
Proof.
  intros Hfuel.
  destruct (Z.le_gt_cases (Z.of_nat (length (todos s))) _index) as [Hge|Hlt].
  { now rewrite removeTodo_revert. }
  destruct (Z.lt_ge_cases _index 0) as [Hneg|Hnn].
  - pose proof (shift_loop_negative_fuelled fuel _index s Hneg Hfuel) as Hloop.
    unfold removeTodo.
    unfold bind at 1. unfold todos_length at 1.
    destruct (Z.ltb_spec _index (Z.of_nat (length (todos s)))); [|lia].
    unfold bind at 1. unfold require, ret at 1. unfold bind at 1.
    destruct (shift_loop fuel _index s) as [[k|f] s0] eqn:E.
    + now apply shift_loop_negative in E.
    + cbn [fst] in *. congruence.
  - destruct s as [ts ev]. cbn [todos] in *.
    destruct (split_at ts _index) as (pre & x & rest & Hts & Hpre & _ & _ & _); [lia|].
    subst ts _index. rewrite removeTodo_at.
    pose proof (shift_loop_fuelled rest pre x ev fuel) as Hloop.
    rewrite length_app in Hfuel. cbn [length] in Hfuel.
    destruct (shift_loop fuel _ _) as [[k|f] s0]; [discriminate|].
    cbn [fst] in *. intros Heq. apply Hloop; [lia|congruence].
Qed.

Lemma toggleTodo_no_fuel _index s :
  fst (toggleTodo _index s) <> Fail OutOfFuel.
Proof.
  destruct (toggleTodo _index s) as [[u|f] s'] eqn:E; [discriminate|].
  destruct (Z.le_gt_cases (Z.of_nat (length (todos s))) _index) as [Hge|Hlt].
  { rewrite toggleTodo_revert in E by exact Hge. inversion E. discriminate. }
  destruct (Z.lt_ge_cases _index 0) as [Hneg|Hnn].
  - unfold toggleTodo in E.
    unfold bind at 1 in E. unfold todos_length at 1 in E.
    destruct (Z.ltb_spec _index (Z.of_nat (length (todos s)))); [|lia].
    unfold bind at 1 in E. unfold require, ret at 1 in E.
    unfold bind at 1 in E. unfold todos_get at 1 in E.
    rewrite in_bounds_false in E by lia. inversion E. discriminate.
  - destruct (lookup_lt_is_Some_2 (todos s) (Z.to_nat _index)) as [t Ht]; [lia|].
    rewrite (toggleTodo_run _ _ t) in E by (lia || exact Ht). discriminate.
Qed.

(** C9 (termination): given fuel for [count] loop iterations, no call to any
    of the functions runs out of fuel, so each one is a finite computation;
    for a valid position [p] in a state that fits in storage the loop of
    [removeTodo] finishes after exactly [count - 1 - p] executions of its
    body, and with less fuel than that it cannot finish. *)
Theorem operations_terminate (fuel : nat) (s : State) :
  (length (todos s) <= fuel)%nat ->
  (forall c, fst (dispatch fuel c s) <> Fail OutOfFuel) /\
  (forall p, storage_ok s -> 0 <= p < Z.of_nat (length (todos s)) ->
     exists s', shift_loop fuel p s
                = (Ok (length (todos s) - 1 - Z.to_nat p)%nat, s')) /\
  (forall p fuel', storage_ok s -> 0 <= p < Z.of_nat (length (todos s)) ->
     (fuel' < length (todos s) - 1 - Z.to_nat p)%nat ->
     fst (shift_loop fuel' p s) = Fail OutOfFuel).
Proof.
  intros Hfuel. split; [|split].
  - intros [_text|_index|_index| | |i]; unfold dispatch, bind.
    + now rewrite addTodo_run.
    + pose proof (toggleTodo_no_fuel _index s) as H.
      destruct (toggleTodo _index s) as [[u|f] s']; [discriminate|].
      cbn [fst] in *. congruence.
    + pose proof (removeTodo_fuelled fuel _index s Hfuel) as H.
      destruct (removeTodo fuel _index s) as [[u|f] s']; [discriminate|].
      cbn [fst] in *. congruence.
    + discriminate.
    + discriminate.
    + unfold todos_getter, todos_get.
      destruct (in_bounds i s); [|discriminate].
      destruct (todos s !! Z.to_nat i); discriminate.
  - intros p [_ Hmax] Hp. destruct s as [ts ev]. cbn [todos] in *.
    destruct (split_at ts p Hp) as (pre & x & rest & Hts & Hpre & _ & _ & _).
    subst ts p. rewrite length_app in Hfuel. cbn [length] in Hfuel.
    eexists. rewrite shift_loop_run; [|exact Hmax|lia].
    do 2 f_equal. rewrite length_app. cbn [length]. lia.
  - intros p fuel' [_ Hmax] Hp Hlt. destruct s as [ts ev]. cbn [todos] in *.
    destruct (split_at ts p Hp) as (pre & x & rest & Hts & Hpre & _ & _ & _).
    subst ts p. apply shift_loop_starved; [exact Hmax|].
    rewrite length_app in Hlt. cbn [length] in Hlt. lia.
Qed.

Lemma operations_terminate_witness :
  exists s',
    shift_loop 3 0 (mkState [mkTodo "a" false; mkTodo "b" true; mkTodo "c" false] [])
      = (Ok 2%nat, s').
Proof.
  refine (proj1 (proj2 (operations_terminate 3
            (mkState [mkTodo "a" false; mkTodo "b" true; mkTodo "c" false] []) _)) 0 _ _).
  - cbn. lia.
  - unfold storage_ok, is_uint256. cbn. split; [lia | vm_compute; discriminate].
  - cbn. lia.
Defined.

(** C10 (toggle frame): for a valid position [p], [toggleTodo(p)] leaves the
    count, every text and every entry other than the one at [p] as they
    were, and appends exactly one event, the [TodoToggled] one. *)
Theorem toggle_frame (s : State) (p : Z) :
  0 <= p < Z.of_nat (length (todos s)) ->
  exists s' c,
    toggleTodo p s = (Ok tt, s') /\
    fst (getTodoCount s') = fst (getTodoCount s) /\
    (forall i, text <$> todos s' !! i = text <$> todos s !! i) /\
    (forall i, i <> Z.to_nat p -> todos s' !! i = todos s !! i) /\
    events s' = events s ++ [TodoToggled p c].
Proof.
  intros Hp.
  destruct (lookup_lt_is_Some_2 (todos s) (Z.to_nat p)) as [t Ht]; [lia|].
  do 2 eexists. split; [apply toggleTodo_run; [lia|exact Ht]|].
  cbn [todos events]. split; [|split; [|split]].
  - unfold getTodoCount, todos_length. cbn [fst todos].
    now rewrite length_insert.
  - intros i. destruct (decide (i = Z.to_nat p)) as [->|Hne].
    + rewrite list_lookup_insert_eq by lia. now rewrite Ht.
    + now rewrite list_lookup_insert_ne.
  - intros i Hne. now rewrite list_lookup_insert_ne.
  - reflexivity.
Qed.

Lemma toggle_frame_witness :
  exists s' c,
    toggleTodo 0 (mkState [mkTodo "a" false; mkTodo "b" true] []) = (Ok tt, s') /\
    events s' = [TodoToggled 0 c].
Proof.
  destruct (toggle_frame (mkState [mkTodo "a" false; mkTodo "b" true] []) 0)
    as (s' & c & Hrun & _ & _ & _ & Hev).
  - cbn. lia.
  - exists s', c. split; [exact Hrun | exact Hev].
Defined.

(** * Further properties of the contract *)

(** ** Failures *)

(** In a state that fits in storage, with a [uint256] argument and fuel for
    the loop, [toggleTodo] and [removeTodo] either succeed or stop at their
    [require]: the checked [todos.length - 1] and [i + 1], the array
    accesses and [pop] never panic. *)
Theorem mutators_never_panic (fuel : nat) (s : State) (p : Z) :
  storage_ok s ->
  is_uint256 p ->
  (length (todos s) <= fuel)%nat ->
  (fst (toggleTodo p s) = Ok tt \/
   toggleTodo p s = (Fail (Revert "Todo does not exist"), s)) /\
  (fst (removeTodo fuel p s) = Ok tt \/
   removeTodo fuel p s = (Fail (Revert "Todo does not exist"), s)) /\
  (fst (toggleTodo p s) = Ok tt <-> p < Z.of_nat (length (todos s))) /\
  (fst (removeTodo fuel p s) = Ok tt <-> p < Z.of_nat (length (todos s))).
Proof.
  intros Hok [Hlo _] Hfuel.
  destruct (Z.le_gt_cases (Z.of_nat (length (todos s))) p) as [Hge|Hlt].
  - rewrite toggleTodo_revert, removeTodo_revert by exact Hge. cbn [fst].
    repeat split; auto; try discriminate; lia.
  - destruct (lookup_lt_is_Some_2 (todos s) (Z.to_nat p)) as [t Ht]; [lia|].
    rewrite (toggleTodo_run p s t) by (lia || exact Ht).
    rewrite removeTodo_run by (exact Hok || lia). cbn [fst].
    repeat split; auto.
Qed.

Lemma mutators_never_panic_witness :
  fst (removeTodo 2 1 (mkState [mkTodo "a" false; mkTodo "b" true] [])) = Ok tt \/
  removeTodo 2 1 (mkState [mkTodo "a" false; mkTodo "b" true] [])
    = (Fail (Revert "Todo does not exist"),
       mkState [mkTodo "a" false; mkTodo "b" true] []).
Proof.
  refine (proj1 (proj2 (mutators_never_panic 2
            (mkState [mkTodo "a" false; mkTodo "b" true] []) 1 _ _ _))).
  - unfold storage_ok, is_uint256. cbn. split; [lia | vm_compute; discriminate].
  - unfold is_uint256. split; [lia | vm_compute; discriminate].
  - cbn. lia.
Defined.

(** ** The event log *)

Lemma effect_events s c s' :
  Effect s c s' ->
  events s' = events s \/ exists e, events s' = events s ++ [e].
Proof. intros [c0|_text|_index t Hp Ht|_index Hp]; cbn [events]; eauto. Qed.

(** The log is append-only: whatever calls are made, from whatever state,
    the log before them is a prefix of the log after them, and it has grown
    by at most one event per call. *)
Theorem events_append_only (fuel : nat) (cs : list Call) (s : State) :
  events s `prefix_of` events (run fuel cs s) /\
  (length (events (run fuel cs s)) <= length (events s) + length cs)%nat.
Proof.
  induction cs as [|c cs [IHp IHl]] using rev_ind; [cbn; split; [done|lia]|].
  rewrite run_snoc, length_app. cbn [length].
  destruct (effect_events _ _ _ (step_effect fuel (run fuel cs s) c)) as [E|[e E]];
    rewrite E.
  - split; [exact IHp|lia].
  - split; [now apply prefix_app_r|]. rewrite length_app. cbn [length]. lia.
Qed.


Lemma effect_count s c s' :
  Effect s c s' ->
  (length (todos s) + length (List.filter is_removed (events s))
     = length (List.filter is_added (events s)))%nat ->
  (length (todos s') + length (List.filter is_removed (events s'))
     = length (List.filter is_added (events s')))%nat.
Proof.
  intros [c0|_text|_index t Hp Ht|_index Hp] Hinv; cbn [todos events];
    rewrite ?List.filter_app, ?length_app, ?length_insert; cbn [List.filter is_added is_removed length];
    try lia.
  rewrite length_delete by (apply lookup_lt_is_Some_2; lia).
  assert (0 < length (todos s))%nat by lia. lia.
Qed.

(** The count can be read off the log: in every state reached from the empty
    store it is the number of [TodoAdded] events minus the number of
    [TodoRemoved] events. *)
Theorem count_from_log (fuel : nat) (cs : list Call) :
  let s := run fuel cs initial in
  getTodoCount s =
    (Ok (Z.of_nat (length (List.filter is_added (events s)))
         - Z.of_nat (length (List.filter is_removed (events s)))), s).
Proof.
  cbn. unfold getTodoCount, todos_length. do 2 f_equal.
  enough ((length (todos (run fuel cs initial))
           + length (List.filter is_removed (events (run fuel cs initial)))
           = length (List.filter is_added (events (run fuel cs initial))))%nat) by lia.
  induction cs as [|c cs IH] using rev_ind; [reflexivity|].
  rewrite run_snoc. eapply effect_count; [apply step_effect|exact IH].
Qed.

Lemma log_fits_snoc log : forall l e,
  log_fits l (log ++ [e]) =
    log_fits l log && event_fits (fold_left replay_event log l) e.
Proof.
  induction log as [|e0 log IH]; intros l e; cbn [app log_fits fold_left].
  - now rewrite andb_true_r.
  - now rewrite IH, andb_assoc.
Qed.

Lemma effect_fits s c s' :
  Effect s c s' ->
  replay (events s) = todos s ->
  log_fits [] (events s) = true -> log_fits [] (events s') = true.
Proof.
  intros [c0|_text|_index t Hp Ht|_index Hp] Hrep Hfit; cbn [events];
    try exact Hfit; rewrite log_fits_snoc, Hfit; cbn [andb];
    fold (replay (events s)); rewrite Hrep; cbn [event_fits].
  - apply Z.eqb_refl.
  - rewrite Ht. apply andb_true_intro. split; [lia|].
    now destruct (completed t).
  - apply andb_true_intro. lia.
Qed.

(** Every event in the log carries the position the contract acted on when
    it emitted it: replayed from the empty array, each [TodoAdded] names the
    tail, each [TodoToggled] and [TodoRemoved] names an occupied slot, and
    each [TodoToggled] records the negation of the flag that slot had. *)
Theorem log_positions_valid (fuel : nat) (cs : list Call) :
  log_fits [] (events (run fuel cs initial)) = true.
Proof.
  induction cs as [|c cs IH] using rev_ind; [reflexivity|].
  rewrite run_snoc.
  eapply effect_fits; [apply step_effect|apply run_replay|exact IH].
Qed.

(** ** Where entries come from *)

Lemma effect_texts s c s' (added : list string) :
  Effect s c s' ->
  text <$> todos s `sublist_of` added ->
  text <$> todos s' `sublist_of` added ++ from_option (fun t => [t]) [] (added_text c).
Proof.
  intros [c0|_text|_index t Hp Ht|_index Hp] Hinv; cbn [todos added_text from_option].
  - now apply sublist_inserts_r.
  - rewrite fmap_app. now apply sublist_app.
  - rewrite app_nil_r, list_fmap_insert. cbn [text].
    rewrite list_insert_id; [exact Hinv|].
    rewrite list_lookup_fmap, Ht. reflexivity.
  - rewrite app_nil_r. etrans; [|exact Hinv].
    rewrite list_fmap_delete. apply sublist_delete.
Qed.

(** The store never invents, rewrites or reorders texts: in every state
    reached from the empty store, the texts of the entries, in position
    order, are a subsequence of the texts passed to [addTodo], in call
    order. *)
Theorem texts_come_from_adds (fuel : nat) (cs : list Call) :
  text <$> todos (run fuel cs initial) `sublist_of` added_texts cs.
Proof.
  induction cs as [|c cs IH] using rev_ind; [reflexivity|].
  rewrite run_snoc. unfold added_texts in *. rewrite omap_app.
  replace (omap added_text [c])
    with (from_option (fun t => [t]) [] (added_text c))
    by (cbn; destruct (added_text c); reflexivity).
  exact (effect_texts _ _ _ _ (step_effect fuel (run fuel cs initial) c) IH).
Qed.

(** The array cannot outgrow the number of [addTodo] calls, so after fewer
    than [2^256] of them every reached state fits in storage. *)
Theorem reachable_fits_storage (fuel : nat) (cs : list Call) :
  Z.of_nat (length (added_texts cs)) <= uint256_max ->
  storage_ok (run fuel cs initial) /\
  (length (todos (run fuel cs initial)) <= length (added_texts cs))%nat.
Proof.
  intros Hmax.
  pose proof (sublist_length _ _ (texts_come_from_adds fuel cs)) as Hlen.
  rewrite length_fmap in Hlen.
  split; [|exact Hlen]. unfold storage_ok, is_uint256. lia.
Qed.

Lemma reachable_fits_storage_witness :
  storage_ok (run 1 [CallAddTodo "a"; CallToggleTodo 0; CallAddTodo "b"; CallRemoveTodo 0]
                initial).
Proof.
  refine (proj1 (reachable_fits_storage 1
            [CallAddTodo "a"; CallToggleTodo 0; CallAddTodo "b"; CallRemoveTodo 0] _)).
  vm_compute. discriminate.
Defined.

(** ** How calls compose *)

Lemma delete_insert_above {A} (x : A) (l : list A) : forall k i,
  (k < i)%nat -> delete k (<[i := x]> l) = <[Nat.pred i := x]> (delete k l).
Proof.
  induction l as [|a l IH]; intros k i Hki; [now destruct k|].
  destruct i as [|i]; [lia|]. destruct k as [|k]; [reflexivity|].
  cbn. rewrite IH by lia. destruct i as [|i]; [lia|reflexivity].
Qed.

Lemma delete_insert_below {A} (x : A) (l : list A) : forall k i,
  (i < k)%nat -> delete k (<[i := x]> l) = <[i := x]> (delete k l).
Proof.
  induction l as [|a l IH]; intros k i Hik; [now destruct k|].
  destruct k as [|k]; [lia|]. destruct i as [|i]; [reflexivity|].
  cbn. now rewrite IH by lia.
Qed.

(** Removing the entry that [addTodo] has just appended needs no loop
    iteration and gives the old array back; the log keeps both events. *)
Theorem add_then_remove_last (s : State) (_text : string) :
  Z.of_nat (length (todos s)) < uint256_max ->
  exists s1 s2,
    addTodo _text s = (Ok tt, s1) /\
    removeTodo 0 (Z.of_nat (length (todos s))) s1 = (Ok tt, s2) /\
    todos s2 = todos s /\
    events s2 = events s ++ [TodoAdded (Z.of_nat (length (todos s))) _text;
                             TodoRemoved (Z.of_nat (length (todos s)))].
Proof.
  intros Hmax. do 2 eexists. split; [apply addTodo_run|].
  split; [apply removeTodo_run|]; cbn [todos events].
  - unfold storage_ok, is_uint256. cbn [todos].
    rewrite length_app. cbn [length]. lia.
  - rewrite length_app. cbn [length]. lia.
  - rewrite length_app. cbn [length]. lia.
  - rewrite Nat2Z.id, delete_middle, app_nil_r, <- app_assoc. split; reflexivity.
Qed.

Lemma add_then_remove_last_witness :
  exists s1 s2,
    addTodo "c" (mkState [mkTodo "a" true] []) = (Ok tt, s1) /\
    removeTodo 0 1 s1 = (Ok tt, s2) /\
    todos s2 = [mkTodo "a" true] /\
    events s2 = [TodoAdded 1 "c"; TodoRemoved 1].
Proof.
  apply (add_then_remove_last (mkState [mkTodo "a" true] []) "c").
  vm_compute. reflexivity.
Defined.

(** Two toggles commute: whichever of two valid positions is toggled first,
    the array ends up the same (the two events are logged in call order). *)
Theorem toggle_commute (s : State) (p q : Z) :
  0 <= p < Z.of_nat (length (todos s)) ->
  0 <= q < Z.of_nat (length (todos s)) ->
  exists s1 s2 s1' s2',
    toggleTodo p s = (Ok tt, s1) /\ toggleTodo q s1 = (Ok tt, s2) /\
    toggleTodo q s = (Ok tt, s1') /\ toggleTodo p s1' = (Ok tt, s2') /\
    todos s2 = todos s2'.
Proof.
  intros Hp Hq.
  destruct (lookup_lt_is_Some_2 (todos s) (Z.to_nat p)) as [t Ht]; [lia|].
  destruct (lookup_lt_is_Some_2 (todos s) (Z.to_nat q)) as [u Hu]; [lia|].
  destruct (decide (Z.to_nat p = Z.to_nat q)) as [Heq|Hne].
  - assert (p = q) by lia. subst q.
    assert (Hmid : <[Z.to_nat p := mkTodo (text t) (negb (completed t))]> (todos s)
                     !! Z.to_nat p = Some (mkTodo (text t) (negb (completed t)))).
    { apply list_lookup_insert_eq. lia. }
    do 4 eexists.
    split; [apply toggleTodo_run; [lia|exact Ht]|].
    split; [apply toggleTodo_run; [lia|exact Hmid]|].
    split; [apply toggleTodo_run; [lia|exact Ht]|].
    split; [apply toggleTodo_run; [lia|exact Hmid]|]. reflexivity.
  - do 4 eexists.
    split; [apply toggleTodo_run; [lia|exact Ht]|].
    split; [apply toggleTodo_run; [lia|]|].
    { cbn [todos]. rewrite list_lookup_insert_ne by exact Hne. exact Hu. }
    split; [apply toggleTodo_run; [lia|exact Hu]|].
    split; [apply toggleTodo_run; [lia|]|].
    { cbn [todos]. rewrite list_lookup_insert_ne by (intros E; now apply Hne). exact Ht. }
    cbn [todos]. apply list_insert_insert_ne. intros E. now apply Hne.
Qed.

Lemma toggle_commute_witness :
  exists s1 s2 s1' s2',
    toggleTodo 0 (mkState [mkTodo "a" false; mkTodo "b" true] []) = (Ok tt, s1) /\
    toggleTodo 1 s1 = (Ok tt, s2) /\
    toggleTodo 1 (mkState [mkTodo "a" false; mkTodo "b" true] []) = (Ok tt, s1') /\
    toggleTodo 0 s1' = (Ok tt, s2') /\
    todos s2 = todos s2'.
Proof.
  apply (toggle_commute (mkState [mkTodo "a" false; mkTodo "b" true] []) 0 1);
    cbn; lia.
Defined.

(** Positions are renamed by a removal: toggling position [i] and then
    removing an earlier position [k] gives the same array as removing [k]
    first and then toggling [i - 1]; for a position [i] before [k] the two
    calls simply commute. *)
Theorem remove_renames_positions (fuel : nat) (s : State) (k i : Z) :
  storage_ok s ->
  0 <= k < Z.of_nat (length (todos s)) ->
  0 <= i < Z.of_nat (length (todos s)) ->
  i <> k ->
  (length (todos s) <= fuel)%nat ->
  exists a b c d,
    toggleTodo i s = (Ok tt, a) /\ removeTodo fuel k a = (Ok tt, b) /\
    removeTodo fuel k s = (Ok tt, c) /\
    toggleTodo (if k <? i then i - 1 else i) c = (Ok tt, d) /\
    todos b = todos d.
Proof.
  intros Hok Hk Hi Hne Hfuel.
  destruct (lookup_lt_is_Some_2 (todos s) (Z.to_nat i)) as [t Ht]; [lia|].
  set (j := if k <? i then i - 1 else i).
  assert (Hj : 0 <= j /\ delete (Z.to_nat k) (todos s) !! Z.to_nat j = Some t).
  { subst j. destruct (Z.ltb_spec k i).
    - split; [lia|]. rewrite list_lookup_delete_ge by lia.
      replace (S (Z.to_nat (i - 1))) with (Z.to_nat i) by lia. exact Ht.
    - split; [lia|]. rewrite list_lookup_delete_lt by lia. exact Ht. }
  destruct Hj as [Hj0 Hjt].
  do 4 eexists.
  split; [apply toggleTodo_run; [lia|exact Ht]|].
  split; [apply removeTodo_run|]; cbn [todos events].
  { unfold storage_ok in *. cbn [todos]. now rewrite length_insert. }
  { rewrite length_insert. lia. }
  { rewrite length_insert. lia. }
  split; [apply removeTodo_run; [exact Hok|lia|lia]|].
  split; [apply toggleTodo_run; [exact Hj0|exact Hjt]|].
  cbn [todos]. subst j. destruct (Z.ltb_spec k i).
  - rewrite delete_insert_above by lia. f_equal. lia.
  - now rewrite delete_insert_below by lia.
Qed.

Lemma remove_renames_positions_witness :
  exists a b c d,
    toggleTodo 2 (mkState [mkTodo "a" false; mkTodo "b" false; mkTodo "c" false] [])
      = (Ok tt, a) /\
    removeTodo 3 0 a = (Ok tt, b) /\
    removeTodo 3 0 (mkState [mkTodo "a" false; mkTodo "b" false; mkTodo "c" false] [])
      = (Ok tt, c) /\
    toggleTodo 1 c = (Ok tt, d) /\
    todos b = todos d.
Proof.
  apply (remove_renames_positions 3
           (mkState [mkTodo "a" false; mkTodo "b" false; mkTodo "c" false] []) 0 2).
  - unfold storage_ok, is_uint256. cbn. split; [lia | vm_compute; discriminate].
  - cbn. lia.
  - cbn. lia.
  - lia.
  - cbn. lia.
Defined.

(** * Properties of the client handlers *)

Section ClientFacts.
Context {B : Type} (K : Client.Contract B) (trim : string -> string).

Ltac client_unfold :=
  unfold Client.addTodo, Client.toggleTodo, Client.removeTodo,
    Client.fetchTodos, Client.checkTodoCount, Client.handleError,
    Client.controlsDisabled.

Ltac client_cases :=
  repeat (match goal with
          | |- context [Client.send_addTodo K ?t ?b] =>
              destruct (Client.send_addTodo K t b) as [[?|?] ?] eqn:?
          | |- context [Client.send_toggleTodo K ?i ?b] =>
              destruct (Client.send_toggleTodo K i b) as [[?|?] ?] eqn:?
          | |- context [Client.send_removeTodo K ?i ?b] =>
              destruct (Client.send_removeTodo K i b) as [[?|?] ?] eqn:?
          | |- context [Client.call_getTodos K ?b] =>
              destruct (Client.call_getTodos K b) as [[[?|]|?] ?] eqn:?
          | |- context [Client.call_getTodoCount K ?b] =>
              destruct (Client.call_getTodoCount K b) as [[?|?] ?] eqn:?
          end; cbn).

(** Without a contract object no handler does anything: the view and the
    backend are returned as they were.  [addTodo] also returns at once when
    the trimmed input is empty, so a blank text is never sent. *)
Theorem client_guards (v : Client.View) (b : B) (index : Z) :
  Client.contract v = false \/ trim (Client.newTodo v) = ""%string ->
  Client.addTodo K trim v b = (v, b) /\
  (Client.contract v = false ->
   Client.toggleTodo K index v b = (v, b) /\
   Client.removeTodo K index v b = (v, b) /\
   Client.fetchTodos K v b = (v, b) /\
   Client.checkTodoCount K v b = (v, b)).
Proof.
  intros H. split.
  - unfold Client.addTodo. destruct H as [-> | ->]; cbn [negb];
      [now rewrite orb_true_r | reflexivity].
  - intros Hc. client_unfold. rewrite Hc. cbn [negb]. repeat split.
Qed.

(** Once a contract object is there, each of the three mutating handlers
    that gets past its guard ends with [loading] and [transactionPending]
    both [false], whatever the awaited calls answered, so the controls
    cannot stay disabled; [fetchTodos] on its own ends with [loading]
    [false]. *)
Theorem client_controls_reenabled (v : Client.View) (b : B) (index : Z) :
  Client.contract v = true ->
  Client.controlsDisabled (fst (Client.toggleTodo K index v b)) = false /\
  Client.controlsDisabled (fst (Client.removeTodo K index v b)) = false /\
  Client.loading (fst (Client.fetchTodos K v b)) = false /\
  (trim (Client.newTodo v) <> ""%string ->
   Client.controlsDisabled (fst (Client.addTodo K trim v b)) = false).
Proof.
  intros Hc. repeat split; [| | |intros Hne; apply String.eqb_neq in Hne];
    client_unfold; cbn; rewrite ?Hc, ?Hne; cbn; client_cases; reflexivity.
Qed.
End ClientFacts.

Section ClientOutcomes.
Context {B : Type} (K : Client.Contract B) (trim : string -> string).

Ltac outcome_start a v H :=
  destruct v as [ts nt ld er ct tc tp cs];
  unfold Client.passes_guard in H; cbn [Client.contract Client.newTodo] in *;
  apply andb_prop in H as [Hc Hg]; subst ct;
  destruct a as [|index|index];
  [apply negb_true_iff in Hg|clear Hg|clear Hg];
  unfold Client.handle, Client.send, Client.customMessage,
    Client.addTodo, Client.toggleTodo, Client.removeTodo,
    Client.fetchTodos, Client.checkTodoCount, Client.controlsDisabled in *;
  cbn [Client.handleError Client.setTodos Client.setNewTodo Client.setLoading
       Client.setError Client.setContract Client.setTodoCount
       Client.setTransactionPending Client.console_error
       Client.todos Client.newTodo Client.loading Client.error
       Client.contract Client.todoCount Client.transactionPending
       Client.console negb orb] in *;
  rewrite ?Hg; cbn [negb orb].

Ltac view_proj :=
  cbn [Client.handleError Client.setTodos Client.setNewTodo Client.setLoading
       Client.setError Client.setContract Client.setTodoCount
       Client.setTransactionPending Client.console_error
       Client.todos Client.newTodo Client.loading Client.error
       Client.contract Client.todoCount Client.transactionPending
       Client.console negb orb default].

(** A rejected transaction is reported and nothing is refreshed: the error
    becomes the handler's message followed by [err.message], the same pair
    goes to the console, and the list, the count and the input field keep
    their values. *)
Theorem client_rejected_transaction (a : Client.Action) (v : Client.View)
    (b b' : B) (m : string) :
  Client.passes_guard trim a v = true ->
  Client.send K a v b = (Client.Rejected m, b') ->
  Client.handle K trim a v b =
    (Client.mkView (Client.todos v) (Client.newTodo v) false
       (Some (String.append (Client.customMessage a) (String.append ": " m)))
       true (Client.todoCount v) false
       (Client.console v ++ [(Client.customMessage a, m)]),
     b').
Proof.
  intros H Hs. outcome_start a v H; rewrite Hs; reflexivity.
Qed.

(** A refresh that fails after a transaction went through is not shown:
    [fetchTodos] sets the error, the handler's own [setError(null)] clears it
    again, and the list and the count stay as they were before the
    transaction; only the console has the message. *)
Theorem client_refresh_failure_hidden (a : Client.Action) (v : Client.View)
    (b b1 b2 : B) (m : string) :
  Client.passes_guard trim a v = true ->
  Client.send K a v b = (Client.Resolved tt, b1) ->
  Client.call_getTodos K b1 = (Client.Rejected m, b2) ->
  exists v',
    Client.handle K trim a v b = (v', b2) /\
    Client.error v' = None /\
    Client.todos v' = Client.todos v /\
    Client.todoCount v' = Client.todoCount v /\
    Client.console v' = Client.console v ++ [("Failed to fetch todos"%string, m)] /\
    Client.controlsDisabled v' = false.
Proof.
  intros H Hs Hf. outcome_start a v H; rewrite Hs; view_proj; rewrite Hf;
    eexists; (split; [reflexivity|]); view_proj; repeat split.
Qed.

(** When the transaction and the refresh both go through, the list is
    replaced by what [getTodos] answered (by the empty list if that is not
    an array) and the error is cleared; the count is replaced only if
    [getTodoCount] answered too, otherwise it keeps its old value and the
    failure goes to the console alone.  After [addTodo] the input field is
    empty. *)
Theorem client_success_mirror (a : Client.Action) (v : Client.View)
    (b b1 b2 b3 : B) (fetched : option (list Todo)) (count : Client.awaited Z) :
  Client.passes_guard trim a v = true ->
  Client.send K a v b = (Client.Resolved tt, b1) ->
  Client.call_getTodos K b1 = (Client.Resolved fetched, b2) ->
  Client.call_getTodoCount K b2 = (count, b3) ->
  exists v',
    Client.handle K trim a v b = (v', b3) /\
    Client.todos v' = default [] fetched /\
    Client.error v' = None /\
    Client.todoCount v' =
      match count with
      | Client.Resolved n => n
      | Client.Rejected _ => Client.todoCount v
      end /\
    Client.console v' =
      match count with
      | Client.Resolved _ => Client.console v
      | Client.Rejected m =>
          Client.console v ++ [("Error in getTodoCount:"%string, m)]
      end /\
    Client.newTodo v' =
      match a with
      | Client.Submit => ""%string
      | _ => Client.newTodo v
      end.
Proof.
  intros H Hs Hf Hn. outcome_start a v H; rewrite Hs; view_proj;
    rewrite Hf; view_proj; rewrite Hn;
    destruct count as [n|m'], fetched as [l|];
    eexists; (split; [reflexivity|]); view_proj; repeat split.
Qed.
End ClientOutcomes.

Lemma client_guards_witness :
  Client.addTodo reads_time_out (fun t => t)
    (Client.mkView [] "" false None true 0 false []) tt
  = (Client.mkView [] "" false None true 0 false [], tt).
Proof.
  refine (proj1 (client_guards reads_time_out (fun t => t)
            (Client.mkView [] "" false None true 0 false []) tt 0 _)).
  right. reflexivity.
Defined.

Lemma client_controls_reenabled_witness :
  Client.controlsDisabled
    (fst (Client.toggleTodo reads_time_out 0
            (Client.mkView [mkTodo "a" false] "" true None true 1 true []) tt))
  = false.
Proof.
  refine (proj1 (client_controls_reenabled reads_time_out (fun t => t)
            (Client.mkView [mkTodo "a" false] "" true None true 1 true []) tt 0 _)).
  reflexivity.
Defined.

Lemma client_rejected_transaction_witness :
  Client.handle (relay 0 (fun _ => "reverted"%string) Client.Resolved) (fun t => t)
    (Client.Toggle 3) (Client.mkView [] "x" false None true 0 false []) initial
  = (Client.mkView [] "x" false (Some "Failed to toggle todo: reverted"%string)
       true 0 false [("Failed to toggle todo"%string, "reverted"%string)],
     initial).
Proof.
  apply (client_rejected_transaction
           (relay 0 (fun _ => "reverted"%string) Client.Resolved) (fun t => t)
           (Client.Toggle 3) (Client.mkView [] "x" false None true 0 false [])
           initial initial "reverted");
    reflexivity.
Defined.

Lemma client_refresh_failure_hidden_witness :
  exists v',
    Client.handle reads_time_out (fun t => t) Client.Submit
      (Client.mkView [] "milk" false None true 0 false []) tt = (v', tt) /\
    Client.error v' = None /\
    Client.todos v' = [] /\
    Client.todoCount v' = 0 /\
    Client.console v' = [("Failed to fetch todos"%string, "timeout"%string)] /\
    Client.controlsDisabled v' = false.
Proof.
  apply (client_refresh_failure_hidden reads_time_out (fun t => t) Client.Submit
           (Client.mkView [] "milk" false None true 0 false []) tt tt tt "timeout");
    reflexivity.
Defined.

Lemma client_success_mirror_witness :
  exists v',
    Client.handle (relay 0 (fun _ => "reverted"%string) Client.Resolved) (fun t => t)
      Client.Submit (Client.mkView [] "milk" false None true 0 false []) initial
    = (v', mkState [mkTodo "milk" false] [TodoAdded 0 "milk"]) /\
    Client.todos v' = [mkTodo "milk" false] /\
    Client.error v' = None /\
    Client.todoCount v' = 1 /\
    Client.console v' = [] /\
    Client.newTodo v' = ""%string.
Proof.
  apply (client_success_mirror
           (relay 0 (fun _ => "reverted"%string) Client.Resolved) (fun t => t)
           Client.Submit (Client.mkView [] "milk" false None true 0 false [])
           initial (mkState [mkTodo "milk" false] [TodoAdded 0 "milk"])
           (mkState [mkTodo "milk" false] [TodoAdded 0 "milk"])
           (mkState [mkTodo "milk" false] [TodoAdded 0 "milk"])
           (Some [mkTodo "milk" false]) (Client.Resolved 1));
    reflexivity.
Defined.

(** * The client in front of the contract *)

Section ClientOnChain.
Variables (fuel : nat) (describe : Failure -> string)
  (toNumber : Z -> Client.awaited Z) (trim : string -> string).

Lemma transact_fail {A} (m : M A) s f s' :
  transact m s = (Fail f, s') -> s' = s.
Proof.
  unfold transact. destruct (m s) as [[a|f0] s0]; intros H; now inversion H.
Qed.

Lemma relay_fetch (v : Client.View) (s : State) :
  Client.contract v = true ->
  Client.todos (fst (Client.fetchTodos (relay fuel describe toNumber) v s)) = todos s /\
  snd (Client.fetchTodos (relay fuel describe toNumber) v s) = s.
Proof.
  intros Hc. destruct v as [ts nt ld er ct tc tp cs]. cbn in Hc. subst ct.
  unfold Client.fetchTodos, Client.checkTodoCount. cbn.
  destruct (toNumber (Z.of_nat (length (todos s)))); split; reflexivity.
Qed.

Ltac relay_start a v Hg :=
  destruct v as [ts nt ld er ct tc tp cs];
  unfold Client.passes_guard in Hg; cbn [Client.contract Client.newTodo] in *;
  apply andb_prop in Hg as [Hc Hg]; subst ct;
  destruct a as [|index|index];
  [apply negb_true_iff in Hg|clear Hg|clear Hg];
  unfold Client.handle, Client.addTodo, Client.toggleTodo, Client.removeTodo,
    Client.fetchTodos, Client.checkTodoCount,
    relay, relay_send, call_of in *;
  cbn [Client.handleError Client.setTodos Client.setNewTodo Client.setLoading
       Client.setError Client.setContract Client.setTodoCount
       Client.setTransactionPending Client.console_error
       Client.todos Client.newTodo Client.loading Client.error
       Client.contract Client.todoCount Client.transactionPending
       Client.console Client.send_addTodo Client.send_toggleTodo
       Client.send_removeTodo Client.call_getTodos Client.call_getTodoCount
       negb orb] in *;
  rewrite ?Hg; cbn [negb orb].

(** Through a relaying contract object, an accepted transaction is followed
    by a refresh that shows the contract's new array, with no error. *)
Lemma relay_handle_accepted (a : Client.Action) (v : Client.View) (s s' : State) x :
  Client.passes_guard trim a v = true ->
  transact (dispatch fuel (call_of a v)) s = (Ok x, s') ->
  exists v',
    Client.handle (relay fuel describe toNumber) trim a v s = (v', s') /\
    Client.error v' = None /\ Client.todos v' = todos s'.
Proof.
  intros Hg Hx. relay_start a v Hg; rewrite Hx;
    unfold transact, getTodos, getTodoCount, todos_length;
    destruct (toNumber (Z.of_nat (length (todos s'))));
    eexists; (split; [reflexivity|]); split; reflexivity.
Qed.

(** A rejected one leaves the contract and the list shown as they were and
    sets the error. *)
Lemma relay_handle_rejected (a : Client.Action) (v : Client.View) (s s0 : State) f :
  Client.passes_guard trim a v = true ->
  transact (dispatch fuel (call_of a v)) s = (Fail f, s0) ->
  exists v',
    Client.handle (relay fuel describe toNumber) trim a v s = (v', s) /\
    is_Some (Client.error v') /\ Client.todos v' = Client.todos v.
Proof.
  intros Hg Hx. pose proof (transact_fail _ _ _ _ Hx) as ->.
  relay_start a v Hg; rewrite Hx;
    eexists; (split; [reflexivity|]); split; eauto.
Qed.

Lemma relay_handle_stopped (a : Client.Action) (v : Client.View) (s : State) :
  Client.passes_guard trim a v = false ->
  Client.handle (relay fuel describe toNumber) trim a v s = (v, s).
Proof.
  intros Hg. unfold Client.passes_guard in Hg. apply andb_false_iff in Hg.
  destruct a as [|index|index];
    unfold Client.handle, Client.addTodo, Client.toggleTodo, Client.removeTodo.
  - destruct Hg as [Hc|Hg]; [rewrite Hc; cbn; now rewrite orb_true_r|].
    apply negb_false_iff in Hg. now rewrite Hg.
  - destruct Hg as [Hc|Hg]; [now rewrite Hc|discriminate].
  - destruct Hg as [Hc|Hg]; [now rewrite Hc|discriminate].
Qed.

Lemma step_transact (c : Call) (s s' : State) x :
  transact (dispatch fuel c) s = (Ok x, s') -> step fuel s c = s'.
Proof. unfold step. now intros ->. Qed.

(** A client whose list mirrors the contract's array still mirrors it after
    any handler has run through a relaying contract object, and the handler
    has submitted at most its own one call. *)
Theorem client_stays_in_sync (a : Client.Action) (v : Client.View) (s : State) :
  Client.todos v = todos s ->
  Client.todos (fst (Client.handle (relay fuel describe toNumber) trim a v s))
    = todos (snd (Client.handle (relay fuel describe toNumber) trim a v s)) /\
  (snd (Client.handle (relay fuel describe toNumber) trim a v s) = s \/
   snd (Client.handle (relay fuel describe toNumber) trim a v s)
     = step fuel s (call_of a v)).
Proof.
  intros Hsync. destruct (Client.passes_guard trim a v) eqn:Hg.
  - destruct (transact (dispatch fuel (call_of a v)) s) as [[x|f] s'] eqn:E.
    + destruct (relay_handle_accepted a v s s' x Hg E) as (v' & -> & _ & Ht).
      cbn [fst snd]. split; [exact Ht|]. right. symmetry. eapply step_transact, E.
    + destruct (relay_handle_rejected a v s s' f Hg E) as (v' & -> & _ & Ht).
      cbn [fst snd]. split; [congruence|now left].
  - rewrite relay_handle_stopped by exact Hg. cbn [fst snd]. auto.
Qed.

(** Acting on a row that a mirroring client shows cannot fail: [toggleTodo]
    and [removeTodo] on any rendered index are accepted by the contract, no
    error is set, and the refreshed list is the old one with that row
    flipped, respectively cut out. *)
Theorem client_rows_never_fail (index : Z) (v : Client.View) (s : State) :
  Client.contract v = true ->
  Client.todos v = todos s ->
  storage_ok s ->
  (length (todos s) <= fuel)%nat ->
  0 <= index < Z.of_nat (length (Client.todos v)) ->
  (exists v' s' t,
     Client.toggleTodo (relay fuel describe toNumber) index v s = (v', s') /\
     Client.error v' = None /\
     Client.todos v !! Z.to_nat index = Some t /\
     Client.todos v' =
       <[Z.to_nat index := mkTodo (text t) (negb (completed t))]> (Client.todos v)) /\
  (exists v' s',
     Client.removeTodo (relay fuel describe toNumber) index v s = (v', s') /\
     Client.error v' = None /\
     Client.todos v' = delete (Z.to_nat index) (Client.todos v)).
Proof.
  intros Hc Hsync Hok Hfuel Hi. rewrite Hsync in *. split.
  - destruct (lookup_lt_is_Some_2 (todos s) (Z.to_nat index)) as [t Ht]; [lia|].
    edestruct (relay_handle_accepted (Client.Toggle index) v s) as (v' & Hh & He & Hl).
    { unfold Client.passes_guard. now rewrite Hc. }
    { cbn [call_of]. unfold transact, dispatch, bind.
      rewrite (toggleTodo_run index s t) by (lia || exact Ht). reflexivity. }
    exists v'. do 2 eexists. split; [exact Hh|]. split; [exact He|].
    split; [exact Ht|]. rewrite Hl. reflexivity.
  - edestruct (relay_handle_accepted (Client.Remove index) v s) as (v' & Hh & He & Hl).
    { unfold Client.passes_guard. now rewrite Hc. }
    { cbn [call_of]. unfold transact, dispatch, bind.
      rewrite removeTodo_run by (exact Hok || lia). reflexivity. }
    exists v'. eexists. split; [exact Hh|]. split; [exact He|].
    rewrite Hl. reflexivity.
Qed.
End ClientOnChain.

Lemma client_stays_in_sync_witness :
  Client.todos
    (fst (Client.handle (relay 1 (fun _ => "reverted"%string) Client.Resolved)
            (fun t => t) (Client.Remove 0)
            (Client.mkView [mkTodo "a" false; mkTodo "b" true] "" false None true 2 false [])
            (mkState [mkTodo "a" false; mkTodo "b" true] [])))
  = todos
      (snd (Client.handle (relay 1 (fun _ => "reverted"%string) Client.Resolved)
              (fun t => t) (Client.Remove 0)
              (Client.mkView [mkTodo "a" false; mkTodo "b" true] "" false None true 2 false [])
              (mkState [mkTodo "a" false; mkTodo "b" true] []))).
Proof.
  refine (proj1 (client_stays_in_sync 1 (fun _ => "reverted"%string) Client.Resolved
            (fun t => t) (Client.Remove 0)
            (Client.mkView [mkTodo "a" false; mkTodo "b" true] "" false None true 2 false [])
            (mkState [mkTodo "a" false; mkTodo "b" true] []) _)).
  reflexivity.
Defined.

Lemma client_rows_never_fail_witness :
  exists v' s',
    Client.removeTodo (relay 2 (fun _ => "reverted"%string) Client.Resolved) 0
      (Client.mkView [mkTodo "a" false; mkTodo "b" true] "" false None true 2 false [])
      (mkState [mkTodo "a" false; mkTodo "b" true] []) = (v', s') /\
    Client.error v' = None /\
    Client.todos v' = [mkTodo "b" true].
Proof.
  refine (proj2 (client_rows_never_fail 2 (fun _ => "reverted"%string) Client.Resolved
            (fun t => t) 0 (Client.mkView [mkTodo "a" false; mkTodo "b" true] "" false None true 2 false [])
            (mkState [mkTodo "a" false; mkTodo "b" true] []) _ _ _ _ _)).
  - reflexivity.
  - reflexivity.
  - unfold storage_ok, is_uint256. cbn. split; [lia | vm_compute; discriminate].
  - cbn. lia.
  - cbn. lia.
Defined.

(** What [initContract] leaves behind on a freshly mounted component.
    Without a signer nothing changes and the controls stay disabled behind
    [loading]; if building the contract object throws, the error is shown
    and the controls are enabled, yet with no contract object every handler
    returns at its guard, so typing a text and pressing the button does
    nothing. *)
Theorem client_init_outcomes {B : Type} (K : Client.Contract B)
    (trim : string -> string) (built : Client.awaited unit) (m _text : string)
    (a : Client.Action) (b : B) :
  Client.initContract false built Client.mount = Client.mount /\
  Client.controlsDisabled Client.mount = true /\
  Client.contract (Client.initContract true (Client.Resolved tt) Client.mount) = true /\
  let v := Client.setNewTodo _text
             (Client.initContract true (Client.Rejected m) Client.mount) in
  Client.controlsDisabled v = false /\
  Client.error v = Some (String.append "Failed to initialize contract: " m) /\
  Client.handle K trim a v b = (v, b).
Proof.
  repeat split.
  destruct a; [|reflexivity|reflexivity].
  unfold Client.handle, Client.addTodo.
  destruct (String.eqb _ _); reflexivity.
Qed.
